(** * harbor-scanner-tunnel: report transformer and scan job store

    A shallow embedding of [pkg/scan] (the transformer) and of
    [pkg/persistence/redis/store.go] (the scan job store), with the
    properties the specification states about them.

    Conventions
    - a Go slice whose nil-ness the code can observe is an [option (list A)]:
      [None] is the nil slice, [Some []] an allocated empty one;
    - a Go map is an [option (gmap K V)], [None] being the nil map;
    - a Go pointer is an [option], [None] being nil, and dereferencing nil
      panics;
    - a Go [error] is an [option go_error], [None] being nil. *)

From Stdlib Require Import ZArith Ascii.
From stdpp Require Import gmap strings list fin_maps.

Local Open Scope string_scope.
Local Open Scope Z_scope.

(** ** Go runtime notions *)

Module slice.
(** [for _, x := range s] treats nil as empty. *)
Definition elems {A : Type} (s : option (list A)) : list A := default [] s.
End slice.

Module gomap.
Definition len {V : Type} (m : option (gmap string V)) : nat :=
    match m with
    | Some m => size m
    | None => O
    end.
End gomap.

(** ** log/slog: only the records the code emits are kept. *)

Module slog.
Inductive Level := LevelDebug | LevelWarn.

Record Record_ := mkRecord {
    level : Level;
    message : string;
    attrs : list (string * string)
  }.

Definition Warn (msg : string) (kvs : list (string * string)) : list Record_ :=
    [ mkRecord LevelWarn msg kvs ].
End slog.

(** ** pkg/harbor *)

Module harbor.

(** Modelled from the spec: the declaration of [harbor.Severity] is not
      among the sources. The spec gives it as an ordered enumeration,
      Unknown < Low < Medium < High < Critical; the code compares its
      values with [>] and [==]. *)
Inductive Severity :=
  | SevUnknown
  | SevLow
  | SevMedium
  | SevHigh
  | SevCritical.

#[global] Instance Severity_eq_dec : EqDecision Severity.
Proof. solve_decision. Defined.

(** The ordinal behind the enumeration. *)
Definition ordinal (s : Severity) : Z :=
    match s with
    | SevUnknown => 1
    | SevLow => 2
    | SevMedium => 3
    | SevHigh => 4
    | SevCritical => 5
    end.

(** Go's [a > b] on severities. *)
Definition gt (a b : Severity) : bool := ordinal b <? ordinal a.

Record Layer := mkLayer {
    Layer_Digest : string;
    Layer_DiffID : string
  }.

(** Modelled from the spec: [harbor.Artifact] and [harbor.Scanner] are
      declared outside the sources; the spec describes the artifact as
      (repository, digest, media type) and the scanner metadata as
      (name, vendor, version). The transformer only passes them on. *)
Record Artifact := mkArtifact {
    Repository : string;
    Digest : string;
    MimeType : string
  }.

Record Scanner := mkScanner {
    Name : string;
    Vendor : string;
    Version_ : string
  }.

(** A value stored in a vendor attribute map ([interface{}] in Go): the
      transformer only ever stores the source CVSS map. *)
Inductive AttributeValue (CVSSInfo : Type) :=
  | CVSSValue (info : option (gmap string CVSSInfo)).
Arguments CVSSValue {CVSSInfo} info.

Module VulnerabilityItem.
Record t (CVSSInfo : Type) := mk {
      ID : string;
      Pkg : string;
      Version : string;
      FixVersion : string;
      Severity : harbor.Severity;
      Description : string;
      Links : option (list string);
      Layer : option harbor.Layer;
      CweIDs : option (list string);
      VendorAttributes : option (gmap string (AttributeValue CVSSInfo))
    }.
Arguments mk {CVSSInfo}.
Arguments ID {CVSSInfo}.
Arguments Pkg {CVSSInfo}.
Arguments Version {CVSSInfo}.
Arguments FixVersion {CVSSInfo}.
Arguments Severity {CVSSInfo}.
Arguments Description {CVSSInfo}.
Arguments Links {CVSSInfo}.
Arguments Layer {CVSSInfo}.
Arguments CweIDs {CVSSInfo}.
Arguments VendorAttributes {CVSSInfo}.
End VulnerabilityItem.

Module ScanReport.
Record t (CVSSInfo : Type) := mk {
      GeneratedAt : Z;
      Scanner : harbor.Scanner;
      Artifact : harbor.Artifact;
      Severity : harbor.Severity;
      Vulnerabilities : option (list (VulnerabilityItem.t CVSSInfo))
    }.
Arguments mk {CVSSInfo}.
Arguments GeneratedAt {CVSSInfo}.
Arguments Scanner {CVSSInfo}.
Arguments Artifact {CVSSInfo}.
Arguments Severity {CVSSInfo}.
Arguments Vulnerabilities {CVSSInfo}.
End ScanReport.

End harbor.

(** ** pkg/tunnel: the scan engine's records, as far as the transformer
    reads them. *)

Module tunnel.

Record Layer := mkLayer {
    Layer_Digest : string;
    Layer_DiffID : string
  }.

Module Vulnerability.
Record t (CVSSInfo : Type) := mk {
      VulnerabilityID : string;
      PkgName : string;
      InstalledVersion : string;
      FixedVersion : string;
      Severity : string;
      Description : string;
      PrimaryURL : string;
      References : option (list string);
      Layer : option tunnel.Layer;
      CweIDs : option (list string);
      CVSS : option (gmap string CVSSInfo)
    }.
Arguments mk {CVSSInfo}.
Arguments VulnerabilityID {CVSSInfo}.
Arguments PkgName {CVSSInfo}.
Arguments InstalledVersion {CVSSInfo}.
Arguments FixedVersion {CVSSInfo}.
Arguments Severity {CVSSInfo}.
Arguments Description {CVSSInfo}.
Arguments PrimaryURL {CVSSInfo}.
Arguments References {CVSSInfo}.
Arguments Layer {CVSSInfo}.
Arguments CweIDs {CVSSInfo}.
Arguments CVSS {CVSSInfo}.
End Vulnerability.

End tunnel.


(** ** pkg/scan: the transformer *)

Module scan.

(** [Clock] wraps the [Now] method; time is a count of nanoseconds. *)
Class Clock (C : Type) := Now : C -> Z.

Record transformer (C : Type) := mk_transformer { clock : C }.
Arguments mk_transformer {C}.
Arguments clock {C}.

(** [tunnelToHarborSeverityMap], a Go map literal. *)
Definition tunnelToHarborSeverityMap : gmap string harbor.Severity :=
  list_to_map
    [ ("CRITICAL", harbor.SevCritical);
      ("HIGH", harbor.SevHigh);
      ("MEDIUM", harbor.SevMedium);
      ("LOW", harbor.SevLow);
      ("UNKNOWN", harbor.SevUnknown) ].

(** [toHarborSeverity]: the looked-up severity together with the records
    logged on the way. *)
Definition toHarborSeverity (severity : string)
  : harbor.Severity * list slog.Record_ :=
  match tunnelToHarborSeverityMap !! severity with
  | None =>
      (harbor.SevUnknown,
       slog.Warn "Unknown tunnel severity" [("severity", severity)])
  | Some harborSev => (harborSev, [])
  end.

(** [toLinks] *)
Definition toLinks (primaryURL : string) (references : option (list string))
  : option (list string) :=
  if decide (primaryURL ≠ "") then Some [primaryURL]
  else if decide (references = None) then Some []
  else references.

(** [toHarborLayer] *)
Definition toHarborLayer (tLayer : option tunnel.Layer) : option harbor.Layer :=
  match tLayer with
  | None => None
  | Some l =>
      Some (harbor.mkLayer (tunnel.Layer_Digest l) (tunnel.Layer_DiffID l))
  end.

Section Transformer.
Context {CVSSInfo : Type}.

(** [toVendorAttributes] *)
Definition toVendorAttributes (info : option (gmap string CVSSInfo))
  : option (gmap string (harbor.AttributeValue CVSSInfo)) :=
  let attributes : gmap string (harbor.AttributeValue CVSSInfo) := ∅ in
  let attributes :=
    if (0 <? gomap.len info)%nat
    then <["CVSS" := harbor.CVSSValue info]> attributes
    else attributes in
  Some attributes.

(** The loop of [toHighestSeverity]; leaving the recursion is the [break]. *)
Fixpoint range_vlns (highest : harbor.Severity)
    (vlns : list (harbor.VulnerabilityItem.t CVSSInfo)) : harbor.Severity :=
  match vlns with
  | [] => highest
  | vln :: rest =>
      if harbor.gt (harbor.VulnerabilityItem.Severity vln) highest then
        let highest := harbor.VulnerabilityItem.Severity vln in
        if decide (highest = harbor.SevCritical) then highest
        else range_vlns highest rest
      else range_vlns highest rest
  end.

(** [toHighestSeverity] *)
Definition toHighestSeverity
    (vlns : option (list (harbor.VulnerabilityItem.t CVSSInfo)))
  : harbor.Severity :=
  range_vlns harbor.SevUnknown (slice.elems vlns).

(** The loop of [Transform] over the source, filling [vulnerabilities]
    in order. *)
Fixpoint range_source (source : list (tunnel.Vulnerability.t CVSSInfo))
  : list (harbor.VulnerabilityItem.t CVSSInfo) * list slog.Record_ :=
  match source with
  | [] => ([], [])
  | v :: rest =>
      let '(sev, logged) := toHarborSeverity (tunnel.Vulnerability.Severity v) in
      let item :=
        harbor.VulnerabilityItem.mk
          (tunnel.Vulnerability.VulnerabilityID v)
          (tunnel.Vulnerability.PkgName v)
          (tunnel.Vulnerability.InstalledVersion v)
          (tunnel.Vulnerability.FixedVersion v)
          sev
          (tunnel.Vulnerability.Description v)
          (toLinks (tunnel.Vulnerability.PrimaryURL v)
                   (tunnel.Vulnerability.References v))
          (toHarborLayer (tunnel.Vulnerability.Layer v))
          (tunnel.Vulnerability.CweIDs v)
          (toVendorAttributes (tunnel.Vulnerability.CVSS v)) in
      let '(items, logged') := range_source rest in
      (item :: items, (logged ++ logged')%list)
  end.

Context {C : Type} `{Clock C}.
(** [etc.GetScannerMetadata()], declared outside the sources. *)
Variable GetScannerMetadata : harbor.Scanner.

(** [Transform] *)
Definition Transform (t : transformer C) (artifact : harbor.Artifact)
    (source : option (list (tunnel.Vulnerability.t CVSSInfo)))
  : harbor.ScanReport.t CVSSInfo * list slog.Record_ :=
  let '(items, logged) := range_source (slice.elems source) in
  let vulnerabilities := Some items in
  (harbor.ScanReport.mk
     (Now (clock t))
     GetScannerMetadata
     artifact
     (toHighestSeverity vulnerabilities)
     vulnerabilities,
   logged).

End Transformer.

(** The specification's reading of the aggregate: the greatest ordinal of
    the list, [Unknown] when there is none. *)
Definition max_ordinal (sevs : list harbor.Severity) : Z :=
  foldr Z.max (harbor.ordinal harbor.SevUnknown) (harbor.ordinal <$> sevs).

(** The scan of [toHighestSeverity] without its [break]. *)
Fixpoint range_vlns_no_break {CVSSInfo : Type} (highest : harbor.Severity)
    (vlns : list (harbor.VulnerabilityItem.t CVSSInfo)) : harbor.Severity :=
  match vlns with
  | [] => highest
  | vln :: rest =>
      if harbor.gt (harbor.VulnerabilityItem.Severity vln) highest
      then range_vlns_no_break (harbor.VulnerabilityItem.Severity vln) rest
      else range_vlns_no_break highest rest
  end.

End scan.


(** ** Go errors, as far as the store builds and inspects them *)

Inductive go_error :=
| redis_Nil                                    (* [redis.Nil]: no such key *)
| redis_failure (detail : string)              (* any other error of the client *)
| json_failure (detail : string)               (* an error of [encoding/json] *)
| Errorf_w (format : string) (err : go_error)  (* [xerrors.Errorf(format, err)], format ending in %w *)
| Errorf_s (format : string) (arg : string).   (* [xerrors.Errorf(format, arg)], format holding %s *)

#[global] Instance go_error_eq_dec : EqDecision go_error.
Proof. solve_decision. Defined.

(** [errors.Is(err, redis.Nil)]: follows the chain of wrapped errors. *)
Fixpoint errors_Is_Nil (err : go_error) : bool :=
  match err with
  | redis_Nil => true
  | Errorf_w _ err' => errors_Is_Nil err'
  | _ => false
  end.

(** Does [err] carry [cause] somewhere in its chain? *)
Fixpoint wraps (cause : go_error) (err : go_error) : bool :=
  if decide (err = cause) then true
  else match err with
       | Errorf_w _ err' => wraps cause err'
       | _ => false
       end.

(** The specification's error taxonomy. *)
Inductive ErrorClass := Conflict | NotFound | Storage | Corruption.

#[global] Instance ErrorClass_eq_dec : EqDecision ErrorClass.
Proof. solve_decision. Defined.

(** The class of each error the store can hand to its caller, following
    the specification's words: a job that is not there is [NotFound], a
    stored value that does not decode is [Corruption], everything that
    comes from the backend or from encoding is [Storage]. No error of the
    code stands for [Conflict]. *)
Definition error_class (err : go_error) : ErrorClass :=
  match err with
  | redis_Nil => NotFound
  | redis_failure _ => Storage
  | json_failure _ => Storage
  | Errorf_w format _ =>
      if decide (format = "unmarshalling scan job: %w") then Corruption
      else Storage
  | Errorf_s _ _ => NotFound
  end.

(** ** A computation of the store: it runs against the Redis server and
    either returns or panics. *)

Module go.
Inductive outcome (A : Type) :=
| Return (a : A)
| Panic (reason : string).
Arguments Return {A} a.
Arguments Panic {A} reason.
End go.

(** ** github.com/redis/go-redis: the client, as the store uses it.

    The server holds, under each key, a value and its time-to-live in
    nanoseconds, 0 for a key that does not expire; the passing of time is
    not part of the model. A command may fail on the way (network,
    timeout, cancelled context): the [script] of the client says, command
    by command, whether it does, and an empty script is a healthy server.
    A lost request leaves the server as it was; a lost reply comes after
    the server has executed the command. *)

Module redis.

Inductive fault :=
| RequestLost (detail : string)
| ReplyLost (detail : string).

Record Client := mkClient {
  data : gmap string (string * Z);
  script : list (option fault)
}.

(** [*redis.BoolCmd] *)
Record BoolCmd := mkBoolCmd {
  Val : bool;
  Err : option go_error
}.

Definition take_fault (c : Client) : option fault * Client :=
  match script c with
  | [] => (None, c)
  | f :: rest => (f, mkClient (data c) rest)
  end.

Definition fault_detail (f : fault) : string :=
  match f with
  | RequestLost detail | ReplyLost detail => detail
  end.

(** Does the server answer the next command? *)
Definition answers (c : Client) : bool :=
  match script c with
  | Some _ :: _ => false
  | _ => true
  end.

(** [time.Millisecond], [time.Second] and [redis.KeepTTL], as durations. *)
Definition Millisecond : Z := 1000000.
Definition Second : Z := 1000000000.
Definition KeepTTL : Z := -1.

(** The expiry option of a [SET], as the client writes it; the server is
    one that knows [KEEPTTL] (Redis 6.0 or later). *)
Inductive expiry :=
| NoExpiry                 (* no option: the key does not expire *)
| KEEPTTL                  (* the key keeps the time-to-live it has *)
| PX (milliseconds : Z)
| EX (seconds : Z).

(** [usePrecise], [formatMs] and [formatSec] of the client; Go's [/] and
    [%] on integers truncate towards zero. *)
Definition usePrecise (dur : Z) : bool :=
  (dur <? Second) || negb (Z.rem dur Second =? 0).

Definition formatMs (dur : Z) : Z :=
  if (0 <? dur) && (dur <? Millisecond) then 1
  else Z.quot dur Millisecond.

Definition formatSec (dur : Z) : Z :=
  if (0 <? dur) && (dur <? Second) then 1
  else Z.quot dur Second.

(** The [switch expiration] of [SetNX] and [SetXX]. *)
Definition set_expiry (expiration : Z) : expiry :=
  if expiration =? 0 then NoExpiry
  else if expiration =? KeepTTL then KEEPTTL
  else if usePrecise expiration then PX (formatMs expiration)
  else EX (formatSec expiration).

(** What the server answers to a conditional [SET]. *)
Inductive reply :=
| Written
| NotWritten
| ErrorReply (message : string).

Definition invalid_expire_time : string :=
  "ERR invalid expire time in 'set' command".

(** The time-to-live a [SET] gives its key, [old] being the one the key
    has; [None] when the server refuses the expiry, which it does for a
    count that is not positive. *)
Definition server_ttl (e : expiry) (old : Z) : option Z :=
  match e with
  | NoExpiry => Some 0
  | KEEPTTL => Some old
  | PX milliseconds =>
      if 0 <? milliseconds then Some (milliseconds * Millisecond) else None
  | EX seconds =>
      if 0 <? seconds then Some (seconds * Second) else None
  end.

Definition ttl_of (key : string) (d : gmap string (string * Z)) : Z :=
  match d !! key with
  | Some (_, ttl) => ttl
  | None => 0
  end.

(** [SET key value <expiry> NX] on the server: the expiry is checked
    first, then the value is written only when the key is not there. *)
Definition server_set_nx (key value : string) (e : expiry)
    (d : gmap string (string * Z)) : reply * gmap string (string * Z) :=
  match server_ttl e (ttl_of key d) with
  | None => (ErrorReply invalid_expire_time, d)
  | Some ttl =>
      match d !! key with
      | Some _ => (NotWritten, d)
      | None => (Written, <[key := (value, ttl)]> d)
      end
  end.

(** [SET key value <expiry> XX] on the server: the expiry is checked
    first, then the value is written only when the key is there. *)
Definition server_set_xx (key value : string) (e : expiry)
    (d : gmap string (string * Z)) : reply * gmap string (string * Z) :=
  match server_ttl e (ttl_of key d) with
  | None => (ErrorReply invalid_expire_time, d)
  | Some ttl =>
      match d !! key with
      | Some _ => (Written, <[key := (value, ttl)]> d)
      | None => (NotWritten, d)
      end
  end.

(** The [*redis.BoolCmd] the client makes of a reply: "not written" is a
    [false] value and no error. *)
Definition read_reply (r : reply) : BoolCmd :=
  match r with
  | Written => mkBoolCmd true None
  | NotWritten => mkBoolCmd false None
  | ErrorReply message => mkBoolCmd false (Some (redis_failure message))
  end.

(** [rdb.Get(ctx, key).Result()] *)
Definition Get (key : string) (c : Client)
  : (string * option go_error) * Client :=
  let '(f, c) := take_fault c in
  match f with
  | Some (RequestLost detail) | Some (ReplyLost detail) =>
      (("", Some (redis_failure detail)), c)
  | None =>
      match data c !! key with
      | Some (value, _) => ((value, None), c)
      | None => (("", Some redis_Nil), c)
      end
  end.

(** A conditional [SET] sent through the client. *)
Definition conditional_set
    (server : gmap string (string * Z) -> reply * gmap string (string * Z))
    (c : Client) : BoolCmd * Client :=
  let '(f, c) := take_fault c in
  match f with
  | Some (RequestLost detail) =>
      (mkBoolCmd false (Some (redis_failure detail)), c)
  | Some (ReplyLost detail) =>
      (mkBoolCmd false (Some (redis_failure detail)),
       mkClient (snd (server (data c))) (script c))
  | None =>
      let '(r, d) := server (data c) in
      (read_reply r, mkClient d (script c))
  end.

(** [rdb.SetNX(ctx, key, value, expiration)] *)
Definition SetNX (key value : string) (expiration : Z) (c : Client)
  : BoolCmd * Client :=
  conditional_set (server_set_nx key value (set_expiry expiration)) c.

(** [rdb.SetXX(ctx, key, value, expiration)] *)
Definition SetXX (key value : string) (expiration : Z) (c : Client)
  : BoolCmd * Client :=
  conditional_set (server_set_xx key value (set_expiry expiration)) c.

End redis.

Module go_monad.

Definition M (A : Type) : Type := redis.Client -> go.outcome A * redis.Client.

Definition ret {A : Type} (a : A) : M A := fun c => (go.Return a, c).

Definition panic {A : Type} (reason : string) : M A :=
  fun c => (go.Panic reason, c).

Definition bind {A B : Type} (m : M A) (k : A -> M B) : M B :=
  fun c =>
    match m c with
    | (go.Return a, c') => k a c'
    | (go.Panic reason, c') => (go.Panic reason, c')
    end.

(** A command of the client never panics. *)
Definition command {A : Type} (cmd : redis.Client -> A * redis.Client) : M A :=
  fun c => let '(a, c') := cmd c in (go.Return a, c').

(** [*p] for a pointer [p]. *)
Definition deref {A : Type} (p : option A) : M A :=
  match p with
  | Some a => ret a
  | None => panic "runtime error: invalid memory address or nil pointer dereference"
  end.

End go_monad.

Notation "x <- m ; k" := (go_monad.bind m (fun x => k))
  (at level 20, m at level 100, k at level 200, only parsing).
Notation "' pat <- m ; k" :=
  (go_monad.bind m (fun x => match x with pat => k end))
  (at level 20, pat pattern, m at level 100, k at level 200, only parsing).


(** ** pkg/etc: the configuration of the store *)

Module etc.
(** Modelled from the spec: [etc.RedisStore] is declared outside the
    sources; the store reads its namespace and the time-to-live of a scan
    job (a [time.Duration], in nanoseconds). *)
Record RedisStore := mkRedisStore {
  Namespace : string;
  ScanJobTTL : Z
}.
End etc.

(** ** pkg/job *)

Module job.
(** Modelled from the spec: [job.ScanJob] is declared outside the sources;
    the spec lists its fields (id, status, error, report) and the store
    reads and writes [ID], [Status], [Error] and [Report]. The types of the
    status and of the report are left open. *)
Record ScanJob (ScanJobStatus ScanReport : Type) := mkScanJob {
  ID : string;
  Status : ScanJobStatus;
  Error : string;
  Report : ScanReport
}.
Arguments mkScanJob {ScanJobStatus ScanReport}.
Arguments ID {ScanJobStatus ScanReport}.
Arguments Status {ScanJobStatus ScanReport}.
Arguments Error {ScanJobStatus ScanReport}.
Arguments Report {ScanJobStatus ScanReport}.
End job.

(** The result of [encoding/json]'s [Marshal] and [Unmarshal]. *)
Inductive json_result (A : Type) :=
| JsonOk (a : A)
| JsonErr (err : go_error).
Arguments JsonOk {A} a.
Arguments JsonErr {A} err.

(** ** pkg/persistence/redis: the store *)

Module store.
Import go_monad.

Section Store.
Context {ScanJobStatus ScanReport : Type}.
(** [json.Marshal] and [json.Unmarshal] at [job.ScanJob]. *)
Variable json_Marshal : job.ScanJob ScanJobStatus ScanReport -> json_result string.
Variable json_Unmarshal : string -> json_result (job.ScanJob ScanJobStatus ScanReport).
(** The field [cfg] of the store; its field [rdb] is the client the
    computation runs against. *)
Variable cfg : etc.RedisStore.

(** [keyForScanJob]: [fmt.Sprintf("%s:scan-job:%s", s.cfg.Namespace, scanJobID)] *)
Definition keyForScanJob (scanJobID : string) : string :=
  etc.Namespace cfg ++ ":scan-job:" ++ scanJobID.

(** [Create] *)
Definition Create (scanJob : job.ScanJob ScanJobStatus ScanReport)
  : M (option go_error) :=
  match json_Marshal scanJob with
  | JsonErr err => ret (Some (Errorf_w "marshalling scan job: %w" err))
  | JsonOk bytes =>
      let key := keyForScanJob (job.ID scanJob) in
      cmd <- command (redis.SetNX key bytes (etc.ScanJobTTL cfg)) ;
      match redis.Err cmd with
      | Some err => ret (Some (Errorf_w "creating scan job: %w" err))
      | None => ret None
      end
  end.

(** [update] *)
Definition update (scanJob : job.ScanJob ScanJobStatus ScanReport)
  : M (option go_error) :=
  match json_Marshal scanJob with
  | JsonErr err => ret (Some (Errorf_w "marshalling scan job: %w" err))
  | JsonOk bytes =>
      let key := keyForScanJob (job.ID scanJob) in
      cmd <- command (redis.SetXX key bytes (etc.ScanJobTTL cfg)) ;
      match redis.Err cmd with
      | Some err => ret (Some (Errorf_w "updating scan job: %w" err))
      | None => ret None
      end
  end.

(** [errors.Is(err, redis.Nil)] on a possibly nil error. *)
Definition is_redis_Nil (err : option go_error) : bool :=
  match err with
  | Some e => errors_Is_Nil e
  | None => false
  end.

(** [Get]: the pointer to the scan job and the error. *)
Definition Get (scanJobID : string)
  : M (option (job.ScanJob ScanJobStatus ScanReport) * option go_error) :=
  let key := keyForScanJob scanJobID in
  '(value, err) <- command (redis.Get key) ;
  if is_redis_Nil err then ret (None, None)
  else if bool_decide (err ≠ None) then ret (None, err)
  else
    match json_Unmarshal value with
    | JsonErr err => ret (None, Some (Errorf_w "unmarshalling scan job: %w" err))
    | JsonOk scanJob => ret (Some scanJob, None)
    end.

(** [UpdateStatus]; [error] is the variadic argument. *)
Definition UpdateStatus (scanJobID : string) (newStatus : ScanJobStatus)
    (error : list string) : M (option go_error) :=
  '(scanJob, err) <- Get scanJobID ;
  if bool_decide (scanJob = None)
  then ret (Some (Errorf_s "scan job %s not found" scanJobID))
  else if bool_decide (err ≠ None) then ret err
  else
    j <- deref scanJob ;
    let j := job.mkScanJob (job.ID j) newStatus (job.Error j) (job.Report j) in
    let j :=
      match error with
      | error_0 :: _ => job.mkScanJob (job.ID j) (job.Status j) error_0 (job.Report j)
      | [] => j
      end in
    update j.

(** [UpdateReport] *)
Definition UpdateReport (scanJobID : string) (report : ScanReport)
  : M (option go_error) :=
  '(scanJob, err) <- Get scanJobID ;
  if bool_decide (err ≠ None) then ret err
  else
    j <- deref scanJob ;
    let j := job.mkScanJob (job.ID j) (job.Status j) (job.Error j) report in
    update j.

(** What the server holds for a job: the raw value, and its decoding. *)
Definition stored_value (c : redis.Client) (scanJobID : string) : option string :=
  fst <$> redis.data c !! keyForScanJob scanJobID.

Definition stored_job (c : redis.Client) (scanJobID : string)
  : option (json_result (job.ScanJob ScanJobStatus ScanReport)) :=
  json_Unmarshal <$> stored_value c scanJobID.

End Store.
End store.


(** ** A concrete store, to run the operations on

    Statuses are the four states of a scan; a report is an opaque text.
    The codec writes the four fields of a job separated by semicolons and
    refuses a field that holds one. *)

Module sample.

Inductive ScanJobStatus := Queued | Pending | Finished | Failed.

#[global] Instance ScanJobStatus_eq_dec : EqDecision ScanJobStatus.
Proof. solve_decision. Defined.

Definition status_text (s : ScanJobStatus) : string :=
  match s with
  | Queued => "Queued"
  | Pending => "Pending"
  | Finished => "Finished"
  | Failed => "Failed"
  end.

Definition parse_status (t : string) : option ScanJobStatus :=
  if decide (t = "Queued") then Some Queued
  else if decide (t = "Pending") then Some Pending
  else if decide (t = "Finished") then Some Finished
  else if decide (t = "Failed") then Some Failed
  else None.

Fixpoint has_separator (s : string) : bool :=
  match s with
  | EmptyString => false
  | String a rest => Ascii.eqb a ";"%char || has_separator rest
  end.

Fixpoint fields (s : string) : list string :=
  match s with
  | EmptyString => [ "" ]
  | String a rest =>
      if Ascii.eqb a ";"%char then "" :: fields rest
      else match fields rest with
           | f :: fs => String a f :: fs
           | [] => [ String a "" ]
           end
  end.

Definition json_Marshal (j : job.ScanJob ScanJobStatus string) : json_result string :=
  if has_separator (job.ID j) || has_separator (job.Error j)
     || has_separator (job.Report j)
  then JsonErr (json_failure "unsupported value")
  else JsonOk (job.ID j ++ ";" ++ status_text (job.Status j) ++ ";"
               ++ job.Error j ++ ";" ++ job.Report j).

Definition json_Unmarshal (s : string)
  : json_result (job.ScanJob ScanJobStatus string) :=
  match fields s with
  | [ i; st; e; r ] =>
      match parse_status st with
      | Some st => JsonOk (job.mkScanJob i st e r)
      | None => JsonErr (json_failure "unknown status")
      end
  | _ => JsonErr (json_failure "unexpected end of input")
  end.

Definition cfg : etc.RedisStore :=
  etc.mkRedisStore "harbor.scanner.tunnel:store" 3600000000000.

Definition job1 : job.ScanJob ScanJobStatus string :=
  job.mkScanJob "job-1" Queued "" "".

(** A second job under the id of [job1]. *)
Definition job1' : job.ScanJob ScanJobStatus string :=
  job.mkScanJob "job-1" Pending "" "report".

Definition key1 : string := "harbor.scanner.tunnel:store:scan-job:job-1".

(** A healthy server that holds nothing, and one that holds [job1]. *)
Definition empty_server : redis.Client := redis.mkClient ∅ [].

Definition server1 : redis.Client :=
  redis.mkClient {[ key1 := ("job-1;Queued;;", 3600000000000) ]} [].

(** [server1] with a value under [key1] that does not decode. *)
Definition corrupt_server : redis.Client :=
  redis.mkClient {[ key1 := ("garbage", 3600000000000) ]} [].

(** [server1] whose next command is lost on the way. *)
Definition failing_server1 : redis.Client :=
  redis.mkClient (redis.data server1)
                 [ Some (redis.RequestLost "dial tcp: connection refused") ].

Definition Create := store.Create json_Marshal cfg.
Definition Get := store.Get json_Unmarshal cfg.
Definition UpdateStatus := store.UpdateStatus json_Marshal json_Unmarshal cfg.
Definition UpdateReport := store.UpdateReport json_Marshal json_Unmarshal cfg.

(** A report item of a given severity; CVSS data are vector strings. *)
Definition item (sev : harbor.Severity) : harbor.VulnerabilityItem.t string :=
  harbor.VulnerabilityItem.mk "CVE-0000-0000" "pkg" "1.0" "" sev ""
    (Some []) None None (Some ∅).

(** Three findings of the scan engine: one with a primary URL and CVSS
    data, one with references only and an empty CVSS map, one with
    neither and a severity the table does not know. *)
Definition vuln_full : tunnel.Vulnerability.t string :=
  tunnel.Vulnerability.mk "CVE-2019-1111" "openssl" "1.0.2" "1.0.3" "CRITICAL"
    "buffer overflow" "https://avd.example.org/nvd/cve-2019-1111"
    (Some [ "https://a.example.org"; "https://b.example.org" ])
    (Some (tunnel.mkLayer "sha256:5216338b40a7" "sha256:3c43e0b2e9b2"))
    (Some [ "CWE-134" ])
    (Some {[ "nvd" := "AV:N/AC:L/Au:N/C:P/I:P/A:P" ]}).

Definition vuln_refs : tunnel.Vulnerability.t string :=
  tunnel.Vulnerability.mk "CVE-2019-2222" "curl" "7.61" "" "MEDIUM"
    "" "" (Some [ "https://a.example.org"; "https://b.example.org" ])
    None None (Some ∅).

Definition vuln_bare : tunnel.Vulnerability.t string :=
  tunnel.Vulnerability.mk "CVE-2019-3333" "bash" "4.4" "" "WHATEVER"
    "" "" None None None None.

Definition source : option (list (tunnel.Vulnerability.t string)) :=
  Some [ vuln_full; vuln_refs; vuln_bare ].

(** A clock that shows the time it holds. *)
#[global] Instance fixed_clock : scan.Clock Z := fun now => now.

Definition artifact : harbor.Artifact :=
  harbor.mkArtifact "library/mongo" "sha256:6c3c624b58db"
    "application/vnd.docker.distribution.manifest.v2+json".

Definition scanner : harbor.Scanner :=
  harbor.mkScanner "Tunnel" "Khulnasoft Security" "Unknown".

Definition Transform :=
  scan.Transform (CVSSInfo := string) scanner (scan.mk_transformer 1577836800)
    artifact.

End sample.


(** ** Servers over several commands *)

Module server.

(** The client once a command has been sent: the data are those of the
    server, the script has moved on by one. *)
Definition after_command (c : redis.Client) : redis.Client :=
  redis.mkClient (redis.data c) (tail (redis.script c)).

(** Does the server answer the next [n] commands? *)
Definition answers_next (n : nat) (c : redis.Client) : bool :=
  forallb (fun f : option redis.fault =>
             match f with
             | None => true
             | Some _ => false
             end)
          (take n (redis.script c)).

End server.

(** The record [UpdateStatus] writes back for a stored job. *)
Definition with_status {ScanJobStatus ScanReport : Type}
    (scanJob : job.ScanJob ScanJobStatus ScanReport)
    (newStatus : ScanJobStatus) (error : list string)
  : job.ScanJob ScanJobStatus ScanReport :=
  job.mkScanJob (job.ID scanJob) newStatus
    match error with
    | error_0 :: _ => error_0
    | [] => job.Error scanJob
    end
    (job.Report scanJob).

(** The record [UpdateReport] writes back for a stored job. *)
Definition with_report {ScanJobStatus ScanReport : Type}
    (scanJob : job.ScanJob ScanJobStatus ScanReport) (report : ScanReport)
  : job.ScanJob ScanJobStatus ScanReport :=
  job.mkScanJob (job.ID scanJob) (job.Status scanJob) (job.Error scanJob) report.

(** * Properties of the transformer *)

Module scan_facts.
Import scan.

Lemma ordinal_inj (a b : harbor.Severity) :
  harbor.ordinal a = harbor.ordinal b -> a = b.
Proof. destruct a, b; simpl; intros E; try reflexivity; discriminate E. Qed.

Lemma ordinal_range (a : harbor.Severity) : 1 <= harbor.ordinal a <= 5.
Proof. destruct a; simpl; lia. Qed.

Lemma gt_spec (a b : harbor.Severity) :
  harbor.gt a b = true <-> harbor.ordinal b < harbor.ordinal a.
Proof. unfold harbor.gt. apply Z.ltb_lt. Qed.

Lemma gt_false (a b : harbor.Severity) :
  harbor.gt a b = false <-> harbor.ordinal a <= harbor.ordinal b.
Proof. unfold harbor.gt. apply Z.ltb_ge. Qed.

Section Aggregate.
Context {CVSSInfo : Type}.
Implicit Types vlns : list (harbor.VulnerabilityItem.t CVSSInfo).

(** Once the scan holds [SevCritical] nothing can replace it, so the
    [break] skips iterations that would change nothing. *)
Lemma no_break_critical vlns :
  range_vlns_no_break harbor.SevCritical vlns = harbor.SevCritical.
Proof.
  induction vlns as [|vln rest IH]; simpl; [reflexivity|].
  destruct (harbor.gt _ _) eqn:G; [|exact IH].
  apply gt_spec in G. pose proof (ordinal_range (harbor.VulnerabilityItem.Severity vln)).
  simpl in G. lia.
Qed.

Lemma range_vlns_no_break_eq vlns : forall highest,
  range_vlns highest vlns = range_vlns_no_break highest vlns.
Proof.
  induction vlns as [|vln rest IH]; intros highest; simpl; [reflexivity|].
  destruct (harbor.gt _ _); [|apply IH].
  destruct (decide _) as [E|_]; [|apply IH].
  rewrite E, no_break_critical. reflexivity.
Qed.

Lemma no_break_ordinal vlns : forall highest,
  harbor.ordinal (range_vlns_no_break highest vlns)
  = Z.max (harbor.ordinal highest)
          (max_ordinal (harbor.VulnerabilityItem.Severity <$> vlns)).
Proof.
  unfold max_ordinal.
  induction vlns as [|vln rest IH]; intros highest; cbn [range_vlns_no_break].
  - rewrite fmap_nil. cbn. pose proof (ordinal_range highest). lia.
  - rewrite !fmap_cons. cbn [foldr].
    destruct (harbor.gt _ _) eqn:G; rewrite IH.
    + apply gt_spec in G. lia.
    + apply gt_false in G. lia.
Qed.

Lemma range_vlns_ordinal vlns :
  harbor.ordinal (range_vlns harbor.SevUnknown vlns)
  = max_ordinal (harbor.VulnerabilityItem.Severity <$> vlns).
Proof.
  rewrite range_vlns_no_break_eq, no_break_ordinal.
  assert (1 <= max_ordinal (harbor.VulnerabilityItem.Severity <$> vlns)).
  { unfold max_ordinal.
    destruct vlns as [|vln rest]; rewrite ?fmap_nil, ?fmap_cons; cbn [foldr].
    - cbn. lia.
    - pose proof (ordinal_range (harbor.VulnerabilityItem.Severity vln)). lia. }
  cbn. lia.
Qed.

End Aggregate.

Lemma max_ordinal_upper (sevs : list harbor.Severity) :
  Forall (fun s => harbor.ordinal s <= max_ordinal sevs) sevs.
Proof.
  unfold max_ordinal.
  induction sevs as [|s rest IH]; rewrite ?fmap_cons; cbn [foldr]; constructor.
  - lia.
  - eapply Forall_impl; [exact IH|]. cbn beta. intros; lia.
Qed.

Lemma max_ordinal_perm (sevs sevs' : list harbor.Severity) :
  sevs ≡ₚ sevs' -> max_ordinal sevs = max_ordinal sevs'.
Proof.
  unfold max_ordinal.
  induction 1; rewrite ?fmap_cons; cbn [foldr]; lia.
Qed.

Section Items.
Context {CVSSInfo : Type}.

(** The items come out in the order of the source, each built from the
    source record at its index. *)
Lemma range_source_lookup (source : list (tunnel.Vulnerability.t CVSSInfo)) :
  forall (i : nat) (v : tunnel.Vulnerability.t CVSSInfo),
  source !! i = Some v ->
  exists item,
    fst (range_source source) !! i = Some item
    /\ harbor.VulnerabilityItem.Severity item
       = fst (toHarborSeverity (tunnel.Vulnerability.Severity v))
    /\ harbor.VulnerabilityItem.Links item
       = toLinks (tunnel.Vulnerability.PrimaryURL v)
                 (tunnel.Vulnerability.References v)
    /\ harbor.VulnerabilityItem.VendorAttributes item
       = toVendorAttributes (tunnel.Vulnerability.CVSS v).
Proof.
  induction source as [|v0 rest IH]; intros i v Hi; [discriminate Hi|].
  cbn [range_source].
  destruct (toHarborSeverity (tunnel.Vulnerability.Severity v0)) as [sev logged] eqn:Hsev.
  destruct (range_source rest) as [items logged'] eqn:Hrest.
  destruct i as [|i]; cbn in Hi |- *.
  - injection Hi as <-. eexists. split; [reflexivity|].
    cbn. rewrite Hsev. auto.
  - destruct (IH i v Hi) as (item & Hitem & Hrec). cbn in Hitem.
    exists item. split; [exact Hitem | exact Hrec].
Qed.

Lemma range_source_length (source : list (tunnel.Vulnerability.t CVSSInfo)) :
  length (fst (range_source source)) = length source.
Proof.
  induction source as [|v0 rest IH]; [reflexivity|].
  cbn [range_source].
  destruct (toHarborSeverity _) as [sev logged].
  destruct (range_source rest) as [items logged']. cbn in *. congruence.
Qed.

Context {C : Type} `{Clock C}.
Variable GetScannerMetadata : harbor.Scanner.

Lemma Transform_Vulnerabilities (t : transformer C) (artifact : harbor.Artifact)
    (source : option (list (tunnel.Vulnerability.t CVSSInfo))) :
  harbor.ScanReport.Vulnerabilities (fst (Transform GetScannerMetadata t artifact source))
  = Some (fst (range_source (slice.elems source))).
Proof.
  unfold Transform. destruct (range_source _) as [items logged]. reflexivity.
Qed.

(** The severity of the report is the aggregate of its own items. *)
Lemma Transform_Severity (t : transformer C) (artifact : harbor.Artifact)
    (source : option (list (tunnel.Vulnerability.t CVSSInfo))) :
  let report := fst (Transform GetScannerMetadata t artifact source) in
  harbor.ScanReport.Severity report
  = toHighestSeverity (harbor.ScanReport.Vulnerabilities report).
Proof.
  unfold Transform. destruct (range_source _) as [items logged]. reflexivity.
Qed.

End Items.

End scan_facts.

Module transformer_spec.
Import scan scan_facts.

(** C8: [toHarborSeverity] is a total function that maps a severity string
    through the five-entry table CRITICAL, HIGH, MEDIUM, LOW, UNKNOWN; a
    string outside the table gives [SevUnknown] (and a warning record, the
    only trace of it), a string of the table gives its entry and no
    record. *)
Theorem toHarborSeverity_table (severity : string) :
  dom tunnelToHarborSeverityMap
    = ({[ "CRITICAL"; "HIGH"; "MEDIUM"; "LOW"; "UNKNOWN" ]} : gset string)
  /\ toHarborSeverity severity =
       if decide (severity = "CRITICAL") then (harbor.SevCritical, [])
       else if decide (severity = "HIGH") then (harbor.SevHigh, [])
       else if decide (severity = "MEDIUM") then (harbor.SevMedium, [])
       else if decide (severity = "LOW") then (harbor.SevLow, [])
       else if decide (severity = "UNKNOWN") then (harbor.SevUnknown, [])
       else (harbor.SevUnknown,
             slog.Warn "Unknown tunnel severity" [("severity", severity)]).
Proof.
  split.
  - unfold tunnelToHarborSeverityMap. cbn [list_to_map foldr uncurry fst snd].
    rewrite !dom_insert_L, dom_empty_L. set_solver.
  - repeat (destruct (decide (severity = _)) as [->|?]; [vm_compute; reflexivity|]).
    unfold toHarborSeverity, tunnelToHarborSeverityMap.
    cbn [list_to_map foldr uncurry fst snd].
    rewrite !lookup_insert_ne by congruence. rewrite lookup_empty. reflexivity.
Qed.

Section Items.
Context {CVSSInfo : Type} {C : Type} `{Clock C}.
Variable GetScannerMetadata : harbor.Scanner.
Implicit Types (t : transformer C) (artifact : harbor.Artifact).
Implicit Types source : option (list (tunnel.Vulnerability.t CVSSInfo)).

(** C6: the links of a transformed item are exactly [primary_url] when the
    source has a primary URL; otherwise its references, verbatim, when
    that slice is not nil; otherwise the empty slice. They are never nil. *)
Theorem Transform_Links t artifact source (i : nat)
    (v : tunnel.Vulnerability.t CVSSInfo) :
  slice.elems source !! i = Some v ->
  exists item,
    slice.elems
      (harbor.ScanReport.Vulnerabilities
         (fst (Transform GetScannerMetadata t artifact source))) !! i = Some item
    /\ (tunnel.Vulnerability.PrimaryURL v ≠ "" ->
        harbor.VulnerabilityItem.Links item
        = Some [tunnel.Vulnerability.PrimaryURL v])
    /\ (tunnel.Vulnerability.PrimaryURL v = "" ->
        forall refs, tunnel.Vulnerability.References v = Some refs ->
        harbor.VulnerabilityItem.Links item = Some refs)
    /\ (tunnel.Vulnerability.PrimaryURL v = "" ->
        tunnel.Vulnerability.References v = None ->
        harbor.VulnerabilityItem.Links item = Some [])
    /\ harbor.VulnerabilityItem.Links item ≠ None.
Proof.
  intros Hi.
  destruct (range_source_lookup _ i v Hi) as (item & Hitem & _ & HL & _).
  exists item. rewrite Transform_Vulnerabilities. split; [exact Hitem|].
  rewrite HL. unfold toLinks.
  destruct (decide (tunnel.Vulnerability.PrimaryURL v ≠ "")) as [Hp|Hp].
  - repeat split; intros; congruence.
  - destruct (decide (tunnel.Vulnerability.References v = None)) as [Hr|Hr].
    + repeat split; intros; first [congruence | contradiction].
    + destruct (tunnel.Vulnerability.References v) as [refs|] eqn:Hrefs;
        [|contradiction].
      repeat split; intros; first [congruence | contradiction].
Qed.

(** C7: a transformed item always carries a vendor-attribute map (never
    nil), and that map has the key CVSS exactly when the CVSS map of the
    source is not empty; it has no other key. *)
Theorem Transform_VendorAttributes t artifact source (i : nat)
    (v : tunnel.Vulnerability.t CVSSInfo) :
  slice.elems source !! i = Some v ->
  exists item attributes,
    slice.elems
      (harbor.ScanReport.Vulnerabilities
         (fst (Transform GetScannerMetadata t artifact source))) !! i = Some item
    /\ harbor.VulnerabilityItem.VendorAttributes item = Some attributes
    /\ (is_Some (attributes !! "CVSS")
        <-> exists info, tunnel.Vulnerability.CVSS v = Some info /\ info ≠ ∅)
    /\ (forall key, key ≠ "CVSS" -> attributes !! key = None).
Proof.
  intros Hi.
  destruct (range_source_lookup _ i v Hi) as (item & Hitem & _ & _ & HV).
  rewrite Transform_Vulnerabilities.
  unfold toVendorAttributes in HV.
  destruct (0 <? gomap.len (tunnel.Vulnerability.CVSS v))%nat eqn:Hlen.
  - eexists item, _. split; [exact Hitem|]. split; [exact HV|].
    apply Nat.ltb_lt in Hlen. split; [split|].
    + intros _. destruct (tunnel.Vulnerability.CVSS v) as [info|]; cbn in Hlen; [|lia].
      exists info. split; [reflexivity|]. intros ->. rewrite map_size_empty in Hlen. lia.
    + intros _. rewrite lookup_insert_eq. eauto.
    + intros key Hkey. rewrite lookup_insert_ne by congruence. apply lookup_empty.
  - eexists item, _. split; [exact Hitem|]. split; [exact HV|].
    apply Nat.ltb_ge in Hlen. split; [split|].
    + rewrite lookup_empty. intros [? ?]. discriminate.
    + intros (info & Hinfo & Hne). rewrite Hinfo in Hlen. cbn in Hlen.
      exfalso. apply Hne. apply map_size_empty_iff. lia.
    + intros key _. apply lookup_empty.
Qed.

End Items.

(** C5: the aggregate severity is the maximum of the items' ordinals in
    the order Unknown < Low < Medium < High < Critical: it is at least the
    severity of every item, does not depend on the order of the items, is
    [SevUnknown] for no items, and is what the scan gives without its
    early exit at [SevCritical]. *)
Theorem toHighestSeverity_max {CVSSInfo : Type}
    (vlns : option (list (harbor.VulnerabilityItem.t CVSSInfo))) :
  let sevs := harbor.VulnerabilityItem.Severity <$> slice.elems vlns in
  harbor.ordinal (toHighestSeverity vlns) = max_ordinal sevs
  /\ Forall (fun s => harbor.ordinal s <= harbor.ordinal (toHighestSeverity vlns)) sevs
  /\ (forall vlns', slice.elems vlns' ≡ₚ slice.elems vlns ->
      toHighestSeverity vlns' = toHighestSeverity vlns)
  /\ (slice.elems vlns = [] -> toHighestSeverity vlns = harbor.SevUnknown)
  /\ toHighestSeverity vlns
     = range_vlns_no_break harbor.SevUnknown (slice.elems vlns).
Proof.
  intros sevs. unfold toHighestSeverity.
  split; [apply range_vlns_ordinal|].
  split; [rewrite range_vlns_ordinal; apply max_ordinal_upper|].
  split; [|split].
  - intros vlns' Hperm. apply ordinal_inj.
    rewrite !range_vlns_ordinal. apply max_ordinal_perm.
    apply fmap_Permutation, Hperm.
  - intros ->. reflexivity.
  - apply range_vlns_no_break_eq.
Qed.

(** The three findings of the sample source: the first keeps only its
    primary URL, the second its references, the third gets the empty
    slice. *)
Lemma Transform_Links_witness :
  exists item1 item2 item3,
    harbor.ScanReport.Vulnerabilities (fst (sample.Transform sample.source))
    = Some [ item1; item2; item3 ]
    /\ harbor.VulnerabilityItem.Links item1
       = Some [ "https://avd.example.org/nvd/cve-2019-1111" ]
    /\ harbor.VulnerabilityItem.Links item2
       = Some [ "https://a.example.org"; "https://b.example.org" ]
    /\ harbor.VulnerabilityItem.Links item3 = Some [].
Proof.
  destruct (Transform_Links sample.scanner (mk_transformer 1577836800)
              sample.artifact sample.source 0 sample.vuln_full eq_refl)
    as (item1 & H1 & L1 & _).
  destruct (Transform_Links sample.scanner (mk_transformer 1577836800)
              sample.artifact sample.source 1 sample.vuln_refs eq_refl)
    as (item2 & H2 & _ & L2 & _).
  destruct (Transform_Links sample.scanner (mk_transformer 1577836800)
              sample.artifact sample.source 2 sample.vuln_bare eq_refl)
    as (item3 & H3 & _ & _ & L3 & _).
  exists item1, item2, item3.
  split; [|split; [|split]].
  - vm_compute in H1, H2, H3 |- *.
    injection H1 as <-. injection H2 as <-. injection H3 as <-. reflexivity.
  - apply L1. discriminate.
  - apply (L2 eq_refl). reflexivity.
  - apply L3; reflexivity.
Defined.

(** Of the sample source, the first finding has CVSS data and gets the
    key, the second has an empty CVSS map and the third a nil one: both
    get a map without the key. *)
Lemma Transform_VendorAttributes_witness :
  (exists item attributes,
     slice.elems (harbor.ScanReport.Vulnerabilities
                    (fst (sample.Transform sample.source))) !! 0%nat = Some item
     /\ harbor.VulnerabilityItem.VendorAttributes item = Some attributes
     /\ is_Some (attributes !! "CVSS"))
  /\ (exists item attributes,
     slice.elems (harbor.ScanReport.Vulnerabilities
                    (fst (sample.Transform sample.source))) !! 1%nat = Some item
     /\ harbor.VulnerabilityItem.VendorAttributes item = Some attributes
     /\ attributes !! "CVSS" = None).
Proof.
  split.
  - destruct (Transform_VendorAttributes sample.scanner (mk_transformer 1577836800)
                sample.artifact sample.source 0 sample.vuln_full eq_refl)
      as (item & attributes & Hi & Ha & Hiff & _).
    exists item, attributes. split; [exact Hi|]. split; [exact Ha|].
    apply Hiff. eexists. split; [reflexivity|].
    intros E. apply (f_equal (fun m => m !! "nvd")) in E. vm_compute in E. discriminate E.
  - destruct (Transform_VendorAttributes sample.scanner (mk_transformer 1577836800)
                sample.artifact sample.source 1 sample.vuln_refs eq_refl)
      as (item & attributes & Hi & Ha & Hiff & _).
    exists item, attributes. split; [exact Hi|]. split; [exact Ha|].
    destruct (attributes !! "CVSS") as [x|] eqn:E; [|reflexivity].
    destruct (proj1 Hiff (ex_intro _ x eq_refl)) as (info & Hinfo & Hne).
    injection Hinfo as <-. contradiction.
Defined.

(** MEDIUM, CRITICAL, LOW in any order aggregate to CRITICAL. *)
Lemma toHighestSeverity_max_witness :
  toHighestSeverity
    (Some [ sample.item harbor.SevMedium; sample.item harbor.SevCritical;
            sample.item harbor.SevLow ])
  = harbor.SevCritical
  /\ toHighestSeverity
      (Some [ sample.item harbor.SevLow; sample.item harbor.SevMedium;
              sample.item harbor.SevCritical ])
    = harbor.SevCritical
  /\ toHighestSeverity (Some ([] : list (harbor.VulnerabilityItem.t string)))
    = harbor.SevUnknown.
Proof.
  destruct (toHighestSeverity_max
              (Some [ sample.item harbor.SevMedium; sample.item harbor.SevCritical;
                      sample.item harbor.SevLow ]))
    as (Hmax & _ & Hperm & _).
  destruct (toHighestSeverity_max
              (Some ([] : list (harbor.VulnerabilityItem.t string))))
    as (_ & _ & _ & Hnil & _).
  assert (E : toHighestSeverity
                (Some [ sample.item harbor.SevMedium; sample.item harbor.SevCritical;
                        sample.item harbor.SevLow ]) = harbor.SevCritical).
  { apply ordinal_inj. rewrite Hmax. reflexivity. }
  split; [exact E|]. split; [|apply Hnil; reflexivity].
  rewrite <- E. apply Hperm. cbn [slice.elems default].
  eapply perm_trans; [apply perm_swap|]. apply perm_skip, perm_swap.
Defined.

End transformer_spec.


(** * Properties of the store *)

Module store_facts.
Import go_monad store.

Lemma append_inj_r (p a b : string) : p ++ a = p ++ b -> a = b.
Proof.
  induction p as [|ch p IH]; cbn; [auto|].
  intros E. injection E as E. auto.
Qed.

Lemma take_fault_answers (c : redis.Client) :
  redis.answers c = true ->
  redis.take_fault c = (None, redis.mkClient (redis.data c) (tail (redis.script c))).
Proof.
  unfold redis.answers, redis.take_fault. destruct c as [d sc]. cbn.
  destruct sc as [|[f|] rest]; cbn; intros E; try reflexivity; discriminate E.
Qed.

Lemma take_fault_fails (c : redis.Client) (f : redis.fault) (rest : list (option redis.fault)) :
  redis.script c = Some f :: rest ->
  redis.take_fault c = (Some f, redis.mkClient (redis.data c) rest).
Proof. unfold redis.take_fault. intros ->. reflexivity. Qed.

Lemma answers_or_fails (c : redis.Client) :
  redis.answers c = true \/ exists f rest, redis.script c = Some f :: rest.
Proof.
  unfold redis.answers. destruct (redis.script c) as [|[f|] rest]; eauto.
Qed.

(** *** The expiry of a [SET]: which durations the server accepts *)

Lemma quot_pos_ge (d b : Z) : 0 < b -> b <= d -> 0 < Z.quot d b.
Proof.
  intros Hb Hd. rewrite Z.quot_div_nonneg by lia.
  apply Z.div_str_pos. lia.
Qed.

Lemma quot_neg_le (d b : Z) : 0 < b -> d < 0 -> Z.quot d b <= 0.
Proof.
  intros Hb Hd. replace d with (- (- d)) by lia. rewrite Z.quot_opp_l by lia.
  pose proof (Z.quot_pos (- d) b). lia.
Qed.

Lemma rem_zero_quot (d b : Z) : Z.rem d b = 0 -> Z.quot d b * b = d.
Proof.
  intros Hr. pose proof (Z.quot_rem' d b) as E. rewrite Hr in E. lia.
Qed.

Lemma rem_zero_ge (d b : Z) : 0 < b -> 0 < d -> Z.rem d b = 0 -> b <= d.
Proof.
  intros Hb Hd Hr. pose proof (rem_zero_quot d b Hr) as E.
  pose proof (Z.quot_pos d b ltac:(lia) ltac:(lia)) as Hq.
  destruct (Z.eq_dec (Z.quot d b) 0) as [E0|N0].
  - rewrite E0 in E. lia.
  - nia.
Qed.

Lemma Millisecond_pos : 0 < redis.Millisecond.
Proof. reflexivity. Qed.

Lemma Second_pos : 0 < redis.Second.
Proof. reflexivity. Qed.

Lemma usePrecise_false (d : Z) :
  redis.usePrecise d = false -> redis.Second <= d /\ Z.rem d redis.Second = 0.
Proof.
  unfold redis.usePrecise. intros Hp.
  apply orb_false_elim in Hp as [Hlt Hrem]. split.
  - apply Z.ltb_ge. exact Hlt.
  - apply Z.eqb_eq. apply negb_false_iff. exact Hrem.
Qed.

(** A duration below [KeepTTL] is sent as a count of milliseconds that is
    not positive, and the server refuses it. *)
Lemma set_expiry_refused (d old : Z) :
  d < -1 -> redis.server_ttl (redis.set_expiry d) old = None.
Proof.
  intros Hd. unfold redis.set_expiry, redis.KeepTTL.
  destruct (Z.eqb_spec d 0) as [E|_]; [exfalso; lia|].
  destruct (Z.eqb_spec d (-1)) as [E|_]; [exfalso; lia|].
  pose proof Second_pos as Hs. pose proof Millisecond_pos as Hm.
  destruct (redis.usePrecise d) eqn:Hp.
  2:{ apply usePrecise_false in Hp as [Hge _]. exfalso. lia. }
  unfold redis.formatMs.
  destruct (Z.ltb_spec 0 d) as [H|_]; [exfalso; lia|]. rewrite andb_false_l.
  unfold redis.server_ttl.
  pose proof (quot_neg_le d redis.Millisecond Hm ltac:(lia)) as Hq.
  destruct (Z.ltb_spec 0 (Z.quot d redis.Millisecond)) as [H|_];
    [exfalso; lia | reflexivity].
Qed.

(** [KeepTTL], zero and every positive duration are accepted. *)
Lemma set_expiry_accepted (d old : Z) :
  -1 <= d -> exists ttl, redis.server_ttl (redis.set_expiry d) old = Some ttl.
Proof.
  intros Hd. unfold redis.set_expiry, redis.KeepTTL.
  destruct (Z.eqb_spec d 0) as [E|H0]; [eexists; reflexivity|].
  destruct (Z.eqb_spec d (-1)) as [E|H1]; [eexists; reflexivity|].
  pose proof Second_pos as Hs. pose proof Millisecond_pos as Hm.
  destruct (redis.usePrecise d) eqn:Hp.
  - unfold redis.formatMs.
    destruct (Z.ltb_spec 0 d) as [_|H']; [|exfalso; lia]. rewrite andb_true_l.
    destruct (Z.ltb_spec d redis.Millisecond) as [_|H']; unfold redis.server_ttl.
    + eexists; reflexivity.
    + pose proof (quot_pos_ge d redis.Millisecond Hm H') as Hq.
      destruct (Z.ltb_spec 0 (Z.quot d redis.Millisecond)) as [_|H''];
        [eexists; reflexivity | exfalso; lia].
  - apply usePrecise_false in Hp as [Hge _].
    unfold redis.formatSec.
    destruct (Z.ltb_spec d redis.Second) as [H'|_]; [exfalso; lia|].
    rewrite andb_false_r. unfold redis.server_ttl.
    pose proof (quot_pos_ge d redis.Second Hs Hge) as Hq.
    destruct (Z.ltb_spec 0 (Z.quot d redis.Second)) as [_|H''];
      [eexists; reflexivity | exfalso; lia].
Qed.

(** A positive duration of whole milliseconds is the time-to-live the key
    gets. *)
Lemma set_expiry_whole_ms (d old : Z) :
  0 < d -> Z.rem d redis.Millisecond = 0 ->
  redis.server_ttl (redis.set_expiry d) old = Some d.
Proof.
  intros Hd Hms. unfold redis.set_expiry, redis.KeepTTL.
  destruct (Z.eqb_spec d 0) as [E|_]; [exfalso; lia|].
  destruct (Z.eqb_spec d (-1)) as [E|_]; [exfalso; lia|].
  pose proof Second_pos as Hs. pose proof Millisecond_pos as Hm.
  destruct (redis.usePrecise d) eqn:Hp.
  - pose proof (rem_zero_ge d redis.Millisecond Hm Hd Hms) as Hge.
    unfold redis.formatMs.
    destruct (Z.ltb_spec d redis.Millisecond) as [H'|_]; [exfalso; lia|].
    rewrite andb_false_r. unfold redis.server_ttl.
    pose proof (quot_pos_ge d redis.Millisecond Hm Hge) as Hq.
    destruct (Z.ltb_spec 0 (Z.quot d redis.Millisecond)) as [_|H'];
      [|exfalso; lia].
    f_equal. apply rem_zero_quot. exact Hms.
  - apply usePrecise_false in Hp as [Hge Hrem].
    unfold redis.formatSec.
    destruct (Z.ltb_spec d redis.Second) as [H'|_]; [exfalso; lia|].
    rewrite andb_false_r. unfold redis.server_ttl.
    pose proof (quot_pos_ge d redis.Second Hs Hge) as Hq.
    destruct (Z.ltb_spec 0 (Z.quot d redis.Second)) as [_|H'];
      [|exfalso; lia].
    f_equal. apply rem_zero_quot. exact Hrem.
Qed.

Section Store.
Context {ScanJobStatus ScanReport : Type}.
Variable json_Marshal : job.ScanJob ScanJobStatus ScanReport -> json_result string.
Variable json_Unmarshal : string -> json_result (job.ScanJob ScanJobStatus ScanReport).
Variable cfg : etc.RedisStore.

Abbreviation key := (keyForScanJob cfg).
Abbreviation Get := (store.Get json_Unmarshal cfg).
Abbreviation update := (store.update json_Marshal cfg).

Lemma keyForScanJob_inj (a b : string) : key a = key b -> a = b.
Proof.
  unfold keyForScanJob. intros E.
  apply append_inj_r in E. apply append_inj_r in E. exact E.
Qed.

(** [Get] against a server that answers. *)
Lemma Get_answers (c : redis.Client) (scanJobID : string) :
  redis.answers c = true ->
  Get scanJobID c =
    (go.Return
       match redis.data c !! key scanJobID with
       | None => (None, None)
       | Some (value, _) =>
           match json_Unmarshal value with
           | JsonErr err => (None, Some (Errorf_w "unmarshalling scan job: %w" err))
           | JsonOk scanJob => (Some scanJob, None)
           end
       end,
     redis.mkClient (redis.data c) (tail (redis.script c))).
Proof.
  intros Ha. unfold store.Get, bind, command, redis.Get.
  rewrite (take_fault_answers c Ha). cbn [redis.data].
  destruct (redis.data c !! key scanJobID) as [[value ttl]|]; cbn; [|reflexivity].
  destruct (json_Unmarshal value); reflexivity.
Qed.

(** [Get] against a server that does not: the error of the client, as it is. *)
Lemma Get_fails (c : redis.Client) (scanJobID : string) (f : redis.fault)
    (rest : list (option redis.fault)) :
  redis.script c = Some f :: rest ->
  Get scanJobID c =
    (go.Return (None, Some (redis_failure (redis.fault_detail f))),
     redis.mkClient (redis.data c) rest).
Proof.
  intros Hs. unfold store.Get, bind, command, redis.Get.
  rewrite (take_fault_fails c f rest Hs). destruct f; reflexivity.
Qed.

(** [Get] never writes, and never panics. *)
Lemma Get_data (c : redis.Client) (scanJobID : string) :
  redis.data (snd (Get scanJobID c)) = redis.data c.
Proof.
  destruct (answers_or_fails c) as [Ha|(f & rest & Hs)].
  - rewrite Get_answers by exact Ha. reflexivity.
  - rewrite (Get_fails c scanJobID f rest Hs). reflexivity.
Qed.

(** A successful [update] has overwritten the value under the key of the
    job if the key was there, and has written nothing if it was not. *)
Lemma update_success (scanJob : job.ScanJob ScanJobStatus ScanReport)
    (c c' : redis.Client) :
  update scanJob c = (go.Return None, c') ->
  exists bytes,
    json_Marshal scanJob = JsonOk bytes
    /\ match redis.data c !! key (job.ID scanJob) with
       | Some _ =>
           exists ttl,
             redis.data c'
             = <[key (job.ID scanJob) := (bytes, ttl)]> (redis.data c)
       | None => redis.data c' = redis.data c
       end.
Proof.
  unfold store.update. destruct (json_Marshal scanJob) as [bytes|err].
  2:{ cbn. intros E. discriminate E. }
  unfold bind, command, redis.SetXX, redis.conditional_set.
  destruct (redis.take_fault c) as [[f|] c1] eqn:Hf.
  - destruct f; cbn; intros E; discriminate E.
  - assert (redis.data c1 = redis.data c) as Hd.
    { unfold redis.take_fault in Hf. destruct (redis.script c); inversion Hf; reflexivity. }
    rewrite Hd. unfold redis.server_set_xx.
    destruct (redis.server_ttl _ _) as [ttl|]; [|cbn; intros E; discriminate E].
    destruct (redis.data c !! key (job.ID scanJob)) as [held|]; cbn;
      intros E; injection E as <-; exists bytes; (split; [reflexivity|]).
    + exists ttl. reflexivity.
    + reflexivity.
Qed.

End Store.
End store_facts.

Module store_spec.
Import go_monad store store_facts.

Section Store.
Context {ScanJobStatus ScanReport : Type}.
Variable json_Marshal : job.ScanJob ScanJobStatus ScanReport -> json_result string.
Variable json_Unmarshal : string -> json_result (job.ScanJob ScanJobStatus ScanReport).
Variable cfg : etc.RedisStore.

Abbreviation key := (keyForScanJob cfg).
Abbreviation Create := (store.Create json_Marshal cfg).
Abbreviation Get := (store.Get json_Unmarshal cfg).
Abbreviation UpdateStatus := (store.UpdateStatus json_Marshal json_Unmarshal cfg).
Abbreviation UpdateReport := (store.UpdateReport json_Marshal json_Unmarshal cfg).

(** C1, as the code has it: [Create] for an id that is already stored
    writes nothing, so the record of the first call stays. It returns no
    error when the job encodes, the server answers and the configured
    time-to-live is one the server accepts ([KeepTTL], zero or positive).
    Otherwise it returns an error of the Storage class: the encoder's
    error wrapped as "marshalling scan job", or the client's error (a
    lost command, or the server's refusal of the expiry) wrapped as
    "creating scan job". It never returns a Conflict. *)
Theorem Create_existing (scanJob : job.ScanJob ScanJobStatus ScanReport)
    (c : redis.Client) (held : string * Z) :
  redis.data c !! key (job.ID scanJob) = Some held ->
  exists result c',
    Create scanJob c = (go.Return result, c')
    /\ redis.data c' = redis.data c
    /\ (forall bytes, json_Marshal scanJob = JsonOk bytes ->
        redis.answers c = true -> -1 <= etc.ScanJobTTL cfg -> result = None)
    /\ (forall cause, json_Marshal scanJob = JsonErr cause ->
        result = Some (Errorf_w "marshalling scan job: %w" cause))
    /\ (forall bytes f rest, json_Marshal scanJob = JsonOk bytes ->
        redis.script c = Some f :: rest ->
        result = Some (Errorf_w "creating scan job: %w"
                         (redis_failure (redis.fault_detail f))))
    /\ (forall bytes, json_Marshal scanJob = JsonOk bytes ->
        redis.answers c = true -> etc.ScanJobTTL cfg < -1 ->
        result = Some (Errorf_w "creating scan job: %w"
                         (redis_failure redis.invalid_expire_time)))
    /\ (forall err, result = Some err -> error_class err = Storage).
Proof.
  intros Hheld. unfold store.Create.
  destruct (json_Marshal scanJob) as [bytes|cause].
  2:{ eexists _, c. split; [reflexivity|]. split; [reflexivity|].
      split; [intros bytes E; discriminate E|].
      split; [intros cause' E; injection E as <-; reflexivity|].
      split; [intros bytes f rest E; discriminate E|].
      split; [intros bytes E; discriminate E|].
      intros err E. injection E as <-. reflexivity. }
  unfold bind, command, redis.SetNX, redis.conditional_set.
  destruct (answers_or_fails c) as [Ha|(f & rest & Hs)].
  - assert (Hnf : forall f' rest', redis.script c <> Some f' :: rest').
    { intros f' rest' E. unfold redis.answers in Ha. rewrite E in Ha.
      discriminate Ha. }
    rewrite (take_fault_answers c Ha). cbn [redis.data redis.script].
    unfold redis.server_set_nx. rewrite Hheld.
    destruct (redis.server_ttl (redis.set_expiry (etc.ScanJobTTL cfg))
                (redis.ttl_of (key (job.ID scanJob)) (redis.data c)))
      as [ttl|] eqn:Httl; cbn.
    + eexists _, _. split; [reflexivity|]. split; [reflexivity|].
      split; [reflexivity|].
      split; [intros cause E; discriminate E|].
      split; [intros bytes' f rest _ Hs; destruct (Hnf f rest Hs)|].
      split; [|intros err E; discriminate E].
      intros bytes' _ _ Hlt.
      rewrite (set_expiry_refused _ _ Hlt) in Httl. discriminate Httl.
    + eexists _, _. split; [reflexivity|]. split; [reflexivity|].
      split.
      { intros bytes' _ _ Hge.
        destruct (set_expiry_accepted (etc.ScanJobTTL cfg)
                    (redis.ttl_of (key (job.ID scanJob)) (redis.data c)) Hge)
          as [ttl Ht].
        rewrite Ht in Httl. discriminate Httl. }
      split; [intros cause E; discriminate E|].
      split; [intros bytes' f rest _ Hs; destruct (Hnf f rest Hs)|].
      split; [reflexivity|].
      intros err E. injection E as <-. reflexivity.
  - rewrite (take_fault_fails c f rest Hs). cbn [redis.data redis.script].
    assert (redis.answers c = false) as Hna.
    { unfold redis.answers. rewrite Hs. reflexivity. }
    assert (Hsame : snd (redis.server_set_nx (key (job.ID scanJob)) bytes
                           (redis.set_expiry (etc.ScanJobTTL cfg)) (redis.data c))
                    = redis.data c).
    { unfold redis.server_set_nx. rewrite Hheld.
      destruct (redis.server_ttl _ _); reflexivity. }
    destruct f as [detail|detail]; cbn [redis.data redis.script]; rewrite ?Hsame; cbn;
      (eexists _, _; split; [reflexivity|]; split; [reflexivity|];
       split; [intros ? _ Ha; congruence|];
       split; [intros cause E; discriminate E|];
       split; [intros bytes' f' rest' _ Hs'; rewrite Hs in Hs';
               injection Hs' as <- <-; reflexivity|];
       split; [intros ? _ Ha; congruence|];
       intros err E; injection E as <-; reflexivity).
Qed.

(** C4: [UpdateStatus] for an id that is not stored returns the error
    "scan job ... not found", of the NotFound class, and writes nothing,
    whatever the server does. *)
Theorem UpdateStatus_absent (scanJobID : string) (newStatus : ScanJobStatus)
    (error : list string) (c : redis.Client) :
  redis.data c !! key scanJobID = None ->
  exists err c',
    UpdateStatus scanJobID newStatus error c = (go.Return (Some err), c')
    /\ err = Errorf_s "scan job %s not found" scanJobID
    /\ error_class err = NotFound
    /\ redis.data c' = redis.data c.
Proof.
  intros Habsent. unfold store.UpdateStatus, bind.
  destruct (answers_or_fails c) as [Ha|(f & rest & Hs)].
  - rewrite Get_answers by exact Ha. rewrite Habsent. cbn.
    eexists _, _. repeat split.
  - rewrite (Get_fails _ _ c scanJobID f rest Hs). cbn.
    eexists _, _. repeat split.
Qed.

(** C3, at the input where the code breaks it: when the server fails the
    read inside [UpdateStatus], the caller gets "scan job ... not found",
    a NotFound, and the error of the backend is nowhere in it. *)
Theorem UpdateStatus_backend_failure (scanJobID : string)
    (newStatus : ScanJobStatus) (error : list string) (c : redis.Client)
    (f : redis.fault) (rest : list (option redis.fault)) :
  redis.script c = Some f :: rest ->
  exists err,
    UpdateStatus scanJobID newStatus error c
    = (go.Return (Some err), redis.mkClient (redis.data c) rest)
    /\ err = Errorf_s "scan job %s not found" scanJobID
    /\ error_class err = NotFound
    /\ wraps (redis_failure (redis.fault_detail f)) err = false.
Proof.
  intros Hs. unfold store.UpdateStatus, bind.
  rewrite (Get_fails _ _ c scanJobID f rest Hs). cbn.
  eexists. repeat split.
Qed.

(** The sibling path: [UpdateReport] checks the error first and hands the
    error of the backend to its caller, as it is. *)
Lemma UpdateReport_backend_failure (scanJobID : string) (report : ScanReport)
    (c : redis.Client) (f : redis.fault) (rest : list (option redis.fault)) :
  redis.script c = Some f :: rest ->
  UpdateReport scanJobID report c
  = (go.Return (Some (redis_failure (redis.fault_detail f))),
     redis.mkClient (redis.data c) rest).
Proof.
  intros Hs. unfold store.UpdateReport, bind.
  rewrite (Get_fails _ _ c scanJobID f rest Hs). reflexivity.
Qed.

(** C2, at the input where the code breaks it: [UpdateReport] for an id
    that is not stored, on a server that answers, dereferences the nil
    pointer [Get] gave it and panics; nothing is written. *)
Theorem UpdateReport_absent_panics (scanJobID : string) (report : ScanReport)
    (c : redis.Client) :
  redis.data c !! key scanJobID = None ->
  redis.answers c = true ->
  exists c',
    UpdateReport scanJobID report c
    = (go.Panic "runtime error: invalid memory address or nil pointer dereference", c')
    /\ redis.data c' = redis.data c.
Proof.
  intros Habsent Ha. unfold store.UpdateReport, bind.
  rewrite Get_answers by exact Ha. rewrite Habsent. cbn.
  eexists. split; reflexivity.
Qed.

(** C9: on a server that answers, [Get] returns nil and no error when the
    key is not there; an error of the Corruption class, wrapping the
    decoder's, when the value under the key does not decode; and the
    decoded job when it does. It never writes. *)
Theorem Get_cases (scanJobID : string) (c : redis.Client) :
  redis.answers c = true ->
  (stored_value cfg c scanJobID = None ->
   fst (Get scanJobID c) = go.Return (None, None))
  /\ (forall value cause,
      stored_value cfg c scanJobID = Some value ->
      json_Unmarshal value = JsonErr cause ->
      exists err,
        fst (Get scanJobID c) = go.Return (None, Some err)
        /\ err = Errorf_w "unmarshalling scan job: %w" cause
        /\ error_class err = Corruption)
  /\ (forall value scanJob,
      stored_value cfg c scanJobID = Some value ->
      json_Unmarshal value = JsonOk scanJob ->
      fst (Get scanJobID c) = go.Return (Some scanJob, None))
  /\ redis.data (snd (Get scanJobID c)) = redis.data c.
Proof.
  intros Ha. rewrite Get_answers by exact Ha. unfold stored_value. cbn [fst snd].
  destruct (redis.data c !! key scanJobID) as [[value ttl]|]; cbn.
  - split; [intros E; discriminate E|]. split; [|split; [|reflexivity]].
    + intros v cause E Hc. injection E as <-. rewrite Hc.
      eexists. repeat split.
    + intros v scanJob E Hj. injection E as <-. rewrite Hj. reflexivity.
  - split; [reflexivity|]. split; [|split; [|reflexivity]].
    + intros v cause E. discriminate E.
    + intros v scanJob E. discriminate E.
Qed.

(** C10: a successful [UpdateStatus] on a stored job leaves the id and the
    report of the stored record as they were, and its error too when no
    message is given; for a record stored under its own id, the record
    then holds the new status and, when a message is given, that message
    as its error, and no other key of the server has changed. The codec
    is assumed to decode the record it has just encoded. *)
Theorem UpdateStatus_frame (scanJobID : string) (newStatus : ScanJobStatus)
    (error : list string) (c c' : redis.Client) (value : string) (ttl : Z)
    (scanJob : job.ScanJob ScanJobStatus ScanReport) :
  let updated :=
    job.mkScanJob (job.ID scanJob) newStatus
      match error with
      | error_0 :: _ => error_0
      | [] => job.Error scanJob
      end
      (job.Report scanJob) in
  redis.data c !! key scanJobID = Some (value, ttl) ->
  json_Unmarshal value = JsonOk scanJob ->
  UpdateStatus scanJobID newStatus error c = (go.Return None, c') ->
  (forall bytes, json_Marshal updated = JsonOk bytes ->
                 json_Unmarshal bytes = JsonOk updated) ->
  exists scanJob',
    stored_job json_Unmarshal cfg c' scanJobID = Some (JsonOk scanJob')
    /\ job.ID scanJob' = job.ID scanJob
    /\ job.Report scanJob' = job.Report scanJob
    /\ (error = [] -> job.Error scanJob' = job.Error scanJob)
    /\ (job.ID scanJob = scanJobID ->
        job.Status scanJob' = newStatus
        /\ (forall error_0 rest, error = error_0 :: rest ->
            job.Error scanJob' = error_0)
        /\ (forall k, k ≠ key scanJobID ->
            redis.data c' !! k = redis.data c !! k)).
Proof.
  intros updated Hheld Hj Hrun Hrt.
  unfold store.UpdateStatus, bind in Hrun.
  destruct (answers_or_fails c) as [Ha|(f & rest & Hs)].
  2:{ rewrite (Get_fails _ _ c scanJobID f rest Hs) in Hrun. cbn in Hrun.
      discriminate Hrun. }
  rewrite Get_answers in Hrun by exact Ha. rewrite Hheld, Hj in Hrun.
  cbn in Hrun.
  assert (Hupd : store.update json_Marshal cfg updated
                   (redis.mkClient (redis.data c) (tail (redis.script c)))
                 = (go.Return None, c')).
  { rewrite <- Hrun. unfold updated. destruct error; reflexivity. }
  clear Hrun. apply update_success in Hupd as (bytes & Hm & Hd).
  cbn [redis.data job.ID updated] in Hd.
  unfold stored_job, stored_value.
  destruct (decide (job.ID scanJob = scanJobID)) as [Hid|Hid].
  - rewrite Hid, Hheld in Hd. destruct Hd as (ttl' & Hd). rewrite Hd.
    exists updated. rewrite lookup_insert_eq. cbn.
    rewrite (Hrt bytes Hm).
    split; [reflexivity|]. split; [reflexivity|]. split; [reflexivity|].
    split; [intros ->; reflexivity|].
    intros _. split; [reflexivity|]. split.
    + intros error_0 rest ->. reflexivity.
    + intros k Hk. apply lookup_insert_ne. congruence.
  - assert (Hk : key (job.ID scanJob) ≠ key scanJobID).
    { intros E. apply Hid. exact (keyForScanJob_inj cfg _ _ E). }
    assert (Hsame : redis.data c' !! key scanJobID = Some (value, ttl)).
    { destruct (redis.data c !! key (job.ID scanJob)).
      - destruct Hd as (ttl' & ->).
        rewrite lookup_insert_ne by exact Hk. exact Hheld.
      - rewrite Hd. exact Hheld. }
    exists scanJob. rewrite Hsame. cbn. rewrite Hj.
    split; [reflexivity|]. split; [reflexivity|]. split; [reflexivity|].
    split; [reflexivity|]. intros E. contradiction.
Qed.

End Store.

(** ** The operations on the sample store *)

Lemma Create_existing_witness :
  redis.data sample.server1 !! sample.key1 = Some ("job-1;Queued;;", 3600000000000)
  /\ exists result c',
      sample.Create sample.job1' sample.server1 = (go.Return result, c')
      /\ redis.data c' = redis.data sample.server1
      /\ result = None.
Proof.
  split; [reflexivity|].
  destruct (Create_existing sample.json_Marshal sample.cfg sample.job1'
              sample.server1 ("job-1;Queued;;", 3600000000000) eq_refl)
    as (result & c' & Hrun & Hdata & Hnil & _).
  exists result, c'. split; [exact Hrun|]. split; [exact Hdata|].
  apply (Hnil "job-1;Pending;;report"); [reflexivity | reflexivity |].
  intros E. discriminate E.
Defined.

(** C1 as the specification states it fails: the second [Create] under
    the id of a stored job returns nil, not an error of any class. The
    stored record is still the first one. *)
Lemma Create_twice_no_conflict :
  sample.Create sample.job1 sample.empty_server = (go.Return None, sample.server1)
  /\ sample.Create sample.job1' sample.server1 = (go.Return None, sample.server1)
  /\ ~ (exists err c',
          sample.Create sample.job1' sample.server1 = (go.Return (Some err), c')
          /\ error_class err = Conflict).
Proof.
  assert (E : sample.Create sample.job1' sample.server1
              = (go.Return None, sample.server1)) by (vm_compute; reflexivity).
  split; [vm_compute; reflexivity|]. split; [exact E|].
  intros (err & c' & Hrun & _). rewrite E in Hrun. discriminate Hrun.
Qed.

Lemma UpdateStatus_absent_witness :
  redis.data sample.server1 !! store.keyForScanJob sample.cfg "job-2" = None
  /\ exists c',
      sample.UpdateStatus "job-2" sample.Failed [ "scan failed" ] sample.server1
      = (go.Return (Some (Errorf_s "scan job %s not found" "job-2")), c')
      /\ redis.data c' = redis.data sample.server1.
Proof.
  split; [reflexivity|].
  destruct (UpdateStatus_absent sample.json_Marshal sample.json_Unmarshal
              sample.cfg "job-2" sample.Failed [ "scan failed" ] sample.server1
              eq_refl)
    as (err & c' & Hrun & -> & _ & Hdata).
  exists c'. split; [exact Hrun | exact Hdata].
Defined.

(** The job is stored, the server drops the read: the caller is told the
    job was not found. *)
Lemma UpdateStatus_backend_failure_witness :
  redis.data sample.failing_server1 !! sample.key1
  = Some ("job-1;Queued;;", 3600000000000)
  /\ sample.UpdateStatus "job-1" sample.Pending [] sample.failing_server1
    = (go.Return (Some (Errorf_s "scan job %s not found" "job-1")), sample.server1)
  /\ error_class (Errorf_s "scan job %s not found" "job-1") = NotFound.
Proof.
  split; [reflexivity|].
  destruct (UpdateStatus_backend_failure sample.json_Marshal sample.json_Unmarshal
              sample.cfg "job-1" sample.Pending [] sample.failing_server1
              (redis.RequestLost "dial tcp: connection refused") [] eq_refl)
    as (err & Hrun & -> & Hclass & _).
  split; [exact Hrun | exact Hclass].
Defined.

Lemma UpdateReport_absent_panics_witness :
  exists c',
    sample.UpdateReport "job-1" "report" sample.empty_server
    = (go.Panic "runtime error: invalid memory address or nil pointer dereference", c')
    /\ redis.data c' = redis.data sample.empty_server.
Proof.
  exact (UpdateReport_absent_panics sample.json_Marshal sample.json_Unmarshal
           sample.cfg "job-1" "report" sample.empty_server eq_refl eq_refl).
Defined.

Lemma Get_cases_witness :
  fst (sample.Get "job-1" sample.empty_server) = go.Return (None, None)
  /\ (exists err,
        fst (sample.Get "job-1" sample.corrupt_server) = go.Return (None, Some err)
        /\ error_class err = Corruption)
  /\ fst (sample.Get "job-1" sample.server1) = go.Return (Some sample.job1, None).
Proof.
  destruct (Get_cases sample.json_Unmarshal sample.cfg "job-1" sample.empty_server eq_refl)
    as (Habsent & _).
  destruct (Get_cases sample.json_Unmarshal sample.cfg "job-1" sample.corrupt_server eq_refl)
    as (_ & Hcorrupt & _).
  destruct (Get_cases sample.json_Unmarshal sample.cfg "job-1" sample.server1 eq_refl)
    as (_ & _ & Hgood & _).
  split; [apply Habsent; reflexivity|]. split.
  - destruct (Hcorrupt "garbage" (json_failure "unexpected end of input") eq_refl eq_refl)
      as (err & Hrun & _ & Hclass).
    exists err. split; [exact Hrun | exact Hclass].
  - apply (Hgood "job-1;Queued;;"); reflexivity.
Defined.

Lemma UpdateStatus_frame_witness :
  exists scanJob',
    stored_job sample.json_Unmarshal sample.cfg
      (snd (sample.UpdateStatus "job-1" sample.Failed [ "scan failed" ] sample.server1))
      "job-1"
    = Some (JsonOk scanJob')
    /\ job.ID scanJob' = "job-1"
    /\ job.Report scanJob' = ""
    /\ job.Status scanJob' = sample.Failed
    /\ job.Error scanJob' = "scan failed".
Proof.
  destruct (UpdateStatus_frame sample.json_Marshal sample.json_Unmarshal sample.cfg
              "job-1" sample.Failed [ "scan failed" ] sample.server1
              (snd (sample.UpdateStatus "job-1" sample.Failed [ "scan failed" ]
                      sample.server1))
              "job-1;Queued;;" 3600000000000 sample.job1
              eq_refl eq_refl eq_refl)
    as (scanJob' & Hstored & Hid & Hreport & _ & Hown).
  { intros bytes E. vm_compute in E. injection E as <-. reflexivity. }
  destruct (Hown eq_refl) as (Hstatus & Herror & _).
  exists scanJob'. split; [exact Hstored|]. split; [exact Hid|].
  split; [exact Hreport|]. split; [exact Hstatus|].
  apply (Herror "scan failed" []). reflexivity.
Defined.

End store_spec.


(** * More on the store: what each operation writes and returns *)

Module store_more.
Import go_monad store store_facts.

Lemma answers_next_S (n : nat) (c : redis.Client) :
  server.answers_next (S n) c = true ->
  redis.answers c = true
  /\ server.answers_next n (server.after_command c) = true.
Proof.
  unfold server.answers_next, redis.answers, server.after_command.
  destruct c as [d sc]. cbn [redis.script redis.data].
  destruct sc as [|[f|] rest]; cbn; intros E; try discriminate E.
  - split; [reflexivity|]. destruct n; reflexivity.
  - split; [reflexivity | exact E].
Qed.

(** A conditional write against a server that answers. *)
Lemma conditional_set_answers
    (srv : gmap string (string * Z) -> redis.reply * gmap string (string * Z))
    (c : redis.Client) :
  redis.answers c = true ->
  redis.conditional_set srv c
  = (redis.read_reply (fst (srv (redis.data c))),
     redis.mkClient (snd (srv (redis.data c))) (tail (redis.script c))).
Proof.
  intros Ha. unfold redis.conditional_set.
  rewrite (take_fault_answers c Ha). cbn [redis.data redis.script].
  destruct (srv (redis.data c)) as [r d]. reflexivity.
Qed.

(** A conditional write leaves the data as they were or as the server
    command makes them, whatever becomes of the request. *)
Lemma conditional_set_data
    (srv : gmap string (string * Z) -> redis.reply * gmap string (string * Z))
    (c : redis.Client) :
  redis.data (snd (redis.conditional_set srv c)) = redis.data c
  \/ redis.data (snd (redis.conditional_set srv c)) = snd (srv (redis.data c)).
Proof.
  unfold redis.conditional_set.
  destruct (redis.take_fault c) as [[f|] c1] eqn:Hf.
  - assert (redis.data c1 = redis.data c) as Hd.
    { unfold redis.take_fault in Hf. destruct (redis.script c); inversion Hf; reflexivity. }
    destruct f; cbn; rewrite ?Hd; auto.
  - assert (redis.data c1 = redis.data c) as Hd.
    { unfold redis.take_fault in Hf. destruct (redis.script c); inversion Hf; reflexivity. }
    rewrite Hd. destruct (srv (redis.data c)) as [r d]. cbn. auto.
Qed.

(** The server refuses the expiry only for a duration below [KeepTTL]. *)
Lemma server_ttl_refused (d old : Z) :
  redis.server_ttl (redis.set_expiry d) old = None -> d < -1.
Proof.
  intros Hnone. destruct (Z.lt_ge_cases d (-1)) as [Hlt|Hge]; [exact Hlt|].
  destruct (set_expiry_accepted d old Hge) as [ttl Ht].
  rewrite Ht in Hnone. discriminate Hnone.
Qed.

Section Store.
Context {ScanJobStatus ScanReport : Type}.
Variable json_Marshal : job.ScanJob ScanJobStatus ScanReport -> json_result string.
Variable json_Unmarshal : string -> json_result (job.ScanJob ScanJobStatus ScanReport).
Variable cfg : etc.RedisStore.

Abbreviation key := (keyForScanJob cfg).
Abbreviation Create := (store.Create json_Marshal cfg).
Abbreviation update := (store.update json_Marshal cfg).
Abbreviation Get := (store.Get json_Unmarshal cfg).
Abbreviation UpdateStatus := (store.UpdateStatus json_Marshal json_Unmarshal cfg).
Abbreviation UpdateReport := (store.UpdateReport json_Marshal json_Unmarshal cfg).

(** [update] and [Create] on a server that answers and gives the key the
    time-to-live [ttl]. *)
Lemma update_answers (scanJob : job.ScanJob ScanJobStatus ScanReport)
    (bytes : string) (ttl : Z) (c : redis.Client) :
  json_Marshal scanJob = JsonOk bytes ->
  redis.answers c = true ->
  redis.server_ttl (redis.set_expiry (etc.ScanJobTTL cfg))
    (redis.ttl_of (key (job.ID scanJob)) (redis.data c)) = Some ttl ->
  update scanJob c
  = (go.Return None,
     redis.mkClient
       match redis.data c !! key (job.ID scanJob) with
       | Some _ => <[key (job.ID scanJob) := (bytes, ttl)]> (redis.data c)
       | None => redis.data c
       end
       (tail (redis.script c))).
Proof.
  intros Hm Ha Httl. unfold store.update. rewrite Hm.
  unfold bind, command, redis.SetXX.
  rewrite conditional_set_answers by exact Ha.
  unfold redis.server_set_xx. rewrite Httl.
  destruct (redis.data c !! key (job.ID scanJob)); reflexivity.
Qed.

Lemma Create_answers (scanJob : job.ScanJob ScanJobStatus ScanReport)
    (bytes : string) (ttl : Z) (c : redis.Client) :
  json_Marshal scanJob = JsonOk bytes ->
  redis.answers c = true ->
  redis.server_ttl (redis.set_expiry (etc.ScanJobTTL cfg))
    (redis.ttl_of (key (job.ID scanJob)) (redis.data c)) = Some ttl ->
  Create scanJob c
  = (go.Return None,
     redis.mkClient
       match redis.data c !! key (job.ID scanJob) with
       | Some _ => redis.data c
       | None => <[key (job.ID scanJob) := (bytes, ttl)]> (redis.data c)
       end
       (tail (redis.script c))).
Proof.
  intros Hm Ha Httl. unfold store.Create. rewrite Hm.
  unfold bind, command, redis.SetNX.
  rewrite conditional_set_answers by exact Ha.
  unfold redis.server_set_nx. rewrite Httl.
  destruct (redis.data c !! key (job.ID scanJob)); reflexivity.
Qed.

(** [UpdateStatus] of a stored job that decodes, on a server that answers
    the read and the write: one conditional overwrite under the key of
    the id the record carries. *)
Lemma UpdateStatus_answers (scanJobID : string) (newStatus : ScanJobStatus)
    (error : list string) (c : redis.Client) (value bytes : string)
    (held ttl : Z) (scanJob : job.ScanJob ScanJobStatus ScanReport) :
  redis.data c !! key scanJobID = Some (value, held) ->
  json_Unmarshal value = JsonOk scanJob ->
  redis.answers c = true ->
  redis.answers (redis.mkClient (redis.data c) (tail (redis.script c))) = true ->
  json_Marshal (with_status scanJob newStatus error) = JsonOk bytes ->
  redis.server_ttl (redis.set_expiry (etc.ScanJobTTL cfg))
    (redis.ttl_of (key (job.ID scanJob)) (redis.data c)) = Some ttl ->
  UpdateStatus scanJobID newStatus error c
  = (go.Return None,
     redis.mkClient
       match redis.data c !! key (job.ID scanJob) with
       | Some _ => <[key (job.ID scanJob) := (bytes, ttl)]> (redis.data c)
       | None => redis.data c
       end
       (tail (tail (redis.script c)))).
Proof.
  intros Hk Hu Ha Ha' Hm Httl.
  unfold store.UpdateStatus, bind.
  rewrite Get_answers by exact Ha. rewrite Hk, Hu. cbn.
  assert (E : (match error with
               | [] => job.mkScanJob (job.ID scanJob) newStatus
                         (job.Error scanJob) (job.Report scanJob)
               | error_0 :: _ => job.mkScanJob (job.ID scanJob) newStatus
                                   error_0 (job.Report scanJob)
               end) = with_status scanJob newStatus error).
  { unfold with_status. destruct error; reflexivity. }
  rewrite E. rewrite (update_answers _ bytes ttl _ Hm Ha' Httl). reflexivity.
Qed.

Lemma UpdateReport_answers (scanJobID : string) (report : ScanReport)
    (c : redis.Client) (value bytes : string) (held ttl : Z)
    (scanJob : job.ScanJob ScanJobStatus ScanReport) :
  redis.data c !! key scanJobID = Some (value, held) ->
  json_Unmarshal value = JsonOk scanJob ->
  redis.answers c = true ->
  redis.answers (redis.mkClient (redis.data c) (tail (redis.script c))) = true ->
  json_Marshal (with_report scanJob report) = JsonOk bytes ->
  redis.server_ttl (redis.set_expiry (etc.ScanJobTTL cfg))
    (redis.ttl_of (key (job.ID scanJob)) (redis.data c)) = Some ttl ->
  UpdateReport scanJobID report c
  = (go.Return None,
     redis.mkClient
       match redis.data c !! key (job.ID scanJob) with
       | Some _ => <[key (job.ID scanJob) := (bytes, ttl)]> (redis.data c)
       | None => redis.data c
       end
       (tail (tail (redis.script c)))).
Proof.
  intros Hk Hu Ha Ha' Hm Httl.
  unfold store.UpdateReport, bind.
  rewrite Get_answers by exact Ha. rewrite Hk, Hu. cbn.
  fold (with_report scanJob report).
  rewrite (update_answers _ bytes ttl _ Hm Ha' Httl). reflexivity.
Qed.

(** [Create] of an id that is not stored, on a server that answers, with
    a configured time-to-live that is positive and a whole number of
    milliseconds: the encoded job goes under the key of its id with that
    time-to-live, and the call returns nil. *)
Theorem Create_fresh (scanJob : job.ScanJob ScanJobStatus ScanReport)
    (bytes : string) (c : redis.Client) :
  redis.data c !! key (job.ID scanJob) = None ->
  redis.answers c = true ->
  0 < etc.ScanJobTTL cfg ->
  Z.rem (etc.ScanJobTTL cfg) redis.Millisecond = 0 ->
  json_Marshal scanJob = JsonOk bytes ->
  Create scanJob c
  = (go.Return None,
     redis.mkClient
       (<[key (job.ID scanJob) := (bytes, etc.ScanJobTTL cfg)]> (redis.data c))
       (tail (redis.script c))).
Proof.
  intros Habsent Ha Hpos Hms Hm.
  rewrite (Create_answers _ bytes (etc.ScanJobTTL cfg) _ Hm Ha
             (set_expiry_whole_ms _ _ Hpos Hms)).
  rewrite Habsent. reflexivity.
Qed.

(** For an id that is not stored yet: [Create] and then [Get] of that id
    give back the job that was created, when the server answers both
    commands and accepts the configured time-to-live, and the codec
    decodes what it encoded for that job. *)
Theorem Create_then_Get (scanJob : job.ScanJob ScanJobStatus ScanReport)
    (bytes : string) (c : redis.Client) :
  redis.data c !! key (job.ID scanJob) = None ->
  server.answers_next 2 c = true ->
  -1 <= etc.ScanJobTTL cfg ->
  json_Marshal scanJob = JsonOk bytes ->
  json_Unmarshal bytes = JsonOk scanJob ->
  exists c1,
    Create scanJob c = (go.Return None, c1)
    /\ Get (job.ID scanJob) c1
       = (go.Return (Some scanJob, None), server.after_command c1).
Proof.
  intros Habsent Hn Hge Hm Hu.
  apply answers_next_S in Hn as [Ha Hn].
  apply answers_next_S in Hn as [Ha' _].
  destruct (set_expiry_accepted (etc.ScanJobTTL cfg)
              (redis.ttl_of (key (job.ID scanJob)) (redis.data c)) Hge)
    as [ttl Httl].
  eexists. split; [exact (Create_answers _ bytes ttl _ Hm Ha Httl)|].
  rewrite Habsent.
  rewrite Get_answers by exact Ha'.
  cbn [redis.data]. rewrite lookup_insert_eq, Hu. reflexivity.
Qed.

(** [Create] always returns, touches no key but the one of its job, and
    its error, if any, wraps the encoder's or the client's error in the
    name of the step that failed: an encoding failure sends nothing to
    the server, and the client fails only when the command is lost or
    the server refuses the configured time-to-live. *)
Theorem Create_returns (scanJob : job.ScanJob ScanJobStatus ScanReport)
    (c : redis.Client) :
  exists result c',
    Create scanJob c = (go.Return result, c')
    /\ (forall k, k ≠ key (job.ID scanJob) ->
        redis.data c' !! k = redis.data c !! k)
    /\ (result = None
        \/ (exists cause,
              json_Marshal scanJob = JsonErr cause
              /\ result = Some (Errorf_w "marshalling scan job: %w" cause)
              /\ c' = c)
        \/ (exists detail,
              result = Some (Errorf_w "creating scan job: %w"
                               (redis_failure detail))
              /\ (redis.answers c = false \/ etc.ScanJobTTL cfg < -1))).
Proof.
  unfold store.Create. destruct (json_Marshal scanJob) as [bytes|cause].
  2:{ eexists _, c. split; [reflexivity|]. split; [reflexivity|].
      right; left. eauto. }
  unfold bind, command, redis.SetNX.
  pose proof (conditional_set_data
                (redis.server_set_nx (key (job.ID scanJob)) bytes
                   (redis.set_expiry (etc.ScanJobTTL cfg))) c)
    as Hdata.
  assert (Hres : redis.Err (fst (redis.conditional_set
                    (redis.server_set_nx (key (job.ID scanJob)) bytes
                       (redis.set_expiry (etc.ScanJobTTL cfg))) c)) = None
                 \/ exists detail,
                      redis.Err (fst (redis.conditional_set
                          (redis.server_set_nx (key (job.ID scanJob)) bytes
                             (redis.set_expiry (etc.ScanJobTTL cfg))) c))
                      = Some (redis_failure detail)
                      /\ (redis.answers c = false \/ etc.ScanJobTTL cfg < -1)).
  { destruct (answers_or_fails c) as [Ha|(f & rest & Hs)].
    - rewrite conditional_set_answers by exact Ha. cbn [fst].
      unfold redis.server_set_nx.
      destruct (redis.server_ttl _ _) as [ttl|] eqn:Httl.
      + left. destruct (redis.data c !! key (job.ID scanJob)); reflexivity.
      + right. eexists. split; [reflexivity|]. right.
        exact (server_ttl_refused _ _ Httl).
    - right. exists (redis.fault_detail f).
      unfold redis.conditional_set. rewrite (take_fault_fails c f rest Hs).
      split; [destruct f; reflexivity|]. left.
      unfold redis.answers. rewrite Hs. reflexivity. }
  destruct (redis.conditional_set _ c) as [cmd c1]. cbn [fst snd] in *.
  assert (Hframe : forall k, k ≠ key (job.ID scanJob) ->
                             redis.data c1 !! k = redis.data c !! k).
  { intros k Hk. destruct Hdata as [->| ->]; [reflexivity|].
    unfold redis.server_set_nx. destruct (redis.server_ttl _ _); [|reflexivity].
    destruct (redis.data c !! key (job.ID scanJob)); cbn; [reflexivity|].
    apply lookup_insert_ne. congruence. }
  destruct Hres as [Hnil|(detail & Herr & Hwhy)].
  - rewrite Hnil. eexists _, _. split; [reflexivity|]. split; [exact Hframe|]. auto.
  - rewrite Herr. eexists _, _. split; [reflexivity|]. split; [exact Hframe|].
    right; right. eauto.
Qed.

(** Two ids have the same key only when they are the same id. *)
Theorem keyForScanJob_eq_iff (a b : string) :
  keyForScanJob cfg a = keyForScanJob cfg b <-> a = b.
Proof.
  split; [apply keyForScanJob_inj | intros ->; reflexivity].
Qed.

(** [Get] always returns, having sent one command and written nothing;
    it never returns both a job and an error, and a job it returns is the
    decoding of the value under the key of the id. *)
Theorem Get_returns (scanJobID : string) (c : redis.Client) :
  exists scanJob err,
    Get scanJobID c = (go.Return (scanJob, err), server.after_command c)
    /\ (scanJob = None \/ err = None)
    /\ (forall j, scanJob = Some j ->
        exists value ttl,
          redis.data c !! key scanJobID = Some (value, ttl)
          /\ json_Unmarshal value = JsonOk j).
Proof.
  destruct (answers_or_fails c) as [Ha|(f & rest & Hs)].
  - rewrite Get_answers by exact Ha.
    destruct (redis.data c !! key scanJobID) as [[value ttl]|] eqn:Hk.
    + destruct (json_Unmarshal value) as [j|cause] eqn:Hu.
      * eexists _, _. split; [reflexivity|]. split; [auto|].
        intros j' E. injection E as <-. eauto.
      * eexists _, _. split; [reflexivity|]. split; [auto|].
        intros j' E. discriminate E.
    + eexists _, _. split; [reflexivity|]. split; [auto|].
      intros j' E. discriminate E.
  - rewrite (Get_fails _ _ c scanJobID f rest Hs).
    unfold server.after_command. rewrite Hs.
    eexists _, _. split; [reflexivity|]. split; [auto|].
    intros j' E. discriminate E.
Qed.

(** [update] of a job whose key is not on the server writes nothing,
    whatever the server does: it never creates a record. When the job
    encodes, the server answers and the configured time-to-live is one
    it accepts, [update] still returns nil. *)
Theorem update_absent (scanJob : job.ScanJob ScanJobStatus ScanReport)
    (c : redis.Client) :
  redis.data c !! key (job.ID scanJob) = None ->
  exists result c',
    update scanJob c = (go.Return result, c')
    /\ redis.data c' = redis.data c
    /\ (forall bytes, json_Marshal scanJob = JsonOk bytes ->
        redis.answers c = true -> -1 <= etc.ScanJobTTL cfg -> result = None).
Proof.
  intros Habsent. unfold store.update.
  destruct (json_Marshal scanJob) as [bytes|cause].
  2:{ eexists _, c. split; [reflexivity|]. split; [reflexivity|].
      intros bytes E. discriminate E. }
  unfold bind, command, redis.SetXX.
  assert (Hxx : snd (redis.server_set_xx (key (job.ID scanJob)) bytes
                       (redis.set_expiry (etc.ScanJobTTL cfg)) (redis.data c))
                = redis.data c).
  { unfold redis.server_set_xx. rewrite Habsent.
    destruct (redis.server_ttl _ _); reflexivity. }
  destruct (answers_or_fails c) as [Ha|(f & rest & Hs)].
  - rewrite conditional_set_answers by exact Ha. rewrite Hxx.
    destruct (redis.Err (redis.read_reply
                (fst (redis.server_set_xx (key (job.ID scanJob)) bytes
                        (redis.set_expiry (etc.ScanJobTTL cfg)) (redis.data c)))))
      as [err|] eqn:Herr.
    + eexists _, _. split; [reflexivity|]. split; [reflexivity|].
      intros bytes' _ _ Hge. exfalso.
      destruct (set_expiry_accepted (etc.ScanJobTTL cfg)
                  (redis.ttl_of (key (job.ID scanJob)) (redis.data c)) Hge)
        as [ttl Httl].
      unfold redis.server_set_xx in Herr. rewrite Httl, Habsent in Herr.
      discriminate Herr.
    + eexists _, _. split; [reflexivity|]. split; reflexivity.
  - unfold redis.conditional_set. rewrite (take_fault_fails c f rest Hs).
    assert (redis.answers c = false) as Hna.
    { unfold redis.answers. rewrite Hs. reflexivity. }
    destruct f; cbn [redis.data redis.script]; rewrite ?Hxx; cbn;
      (eexists _, _; split; [reflexivity|]; split; [reflexivity|];
       intros ? _ Ha; congruence).
Qed.

(** [UpdateStatus] on a stored value that does not decode: the caller is
    told the job was not found, the decoding error is dropped, and
    nothing is written. *)
Theorem UpdateStatus_undecodable (scanJobID : string) (newStatus : ScanJobStatus)
    (error : list string) (c : redis.Client) (value : string) (ttl : Z)
    (cause : go_error) :
  redis.data c !! key scanJobID = Some (value, ttl) ->
  json_Unmarshal value = JsonErr cause ->
  UpdateStatus scanJobID newStatus error c
  = (go.Return (Some (Errorf_s "scan job %s not found" scanJobID)),
     server.after_command c).
Proof.
  intros Hk Hu. unfold store.UpdateStatus, bind.
  destruct (answers_or_fails c) as [Ha|(f & rest & Hs)].
  - rewrite Get_answers by exact Ha. rewrite Hk, Hu. reflexivity.
  - rewrite (Get_fails _ _ c scanJobID f rest Hs).
    unfold server.after_command. rewrite Hs. reflexivity.
Qed.

(** [UpdateReport] on a stored value that does not decode, on a server
    that answers: the caller gets the decoding error, wrapped, and
    nothing is written. *)
Theorem UpdateReport_undecodable (scanJobID : string) (report : ScanReport)
    (c : redis.Client) (value : string) (ttl : Z) (cause : go_error) :
  redis.data c !! key scanJobID = Some (value, ttl) ->
  json_Unmarshal value = JsonErr cause ->
  redis.answers c = true ->
  UpdateReport scanJobID report c
  = (go.Return (Some (Errorf_w "unmarshalling scan job: %w" cause)),
     server.after_command c).
Proof.
  intros Hk Hu Ha. unfold store.UpdateReport, bind.
  rewrite Get_answers by exact Ha. rewrite Hk, Hu. reflexivity.
Qed.

(** [UpdateStatus] of a job stored under its own id, on a server that
    answers the read and the write, with a configured time-to-live that
    is positive and a whole number of milliseconds: the call returns nil
    and the key holds the encoding of the job with the new status (and
    the message, if one is given), with that time-to-live set anew; no
    other key changes. *)
Theorem UpdateStatus_writes (scanJobID : string) (newStatus : ScanJobStatus)
    (error : list string) (c : redis.Client) (value bytes : string) (ttl : Z)
    (scanJob : job.ScanJob ScanJobStatus ScanReport) :
  redis.data c !! key scanJobID = Some (value, ttl) ->
  json_Unmarshal value = JsonOk scanJob ->
  job.ID scanJob = scanJobID ->
  server.answers_next 2 c = true ->
  0 < etc.ScanJobTTL cfg ->
  Z.rem (etc.ScanJobTTL cfg) redis.Millisecond = 0 ->
  json_Marshal (with_status scanJob newStatus error) = JsonOk bytes ->
  UpdateStatus scanJobID newStatus error c
  = (go.Return None,
     redis.mkClient
       (<[key scanJobID := (bytes, etc.ScanJobTTL cfg)]> (redis.data c))
       (tail (tail (redis.script c)))).
Proof.
  intros Hk Hu Hid Hn Hpos Hms Hm.
  apply answers_next_S in Hn as [Ha Hn].
  apply answers_next_S in Hn as [Ha' _]. unfold server.after_command in Ha'.
  rewrite (UpdateStatus_answers _ _ _ _ _ bytes _ (etc.ScanJobTTL cfg) _
             Hk Hu Ha Ha' Hm (set_expiry_whole_ms _ _ Hpos Hms)).
  rewrite Hid, Hk. reflexivity.
Qed.

(** [UpdateReport] of a job stored under its own id, on a server that
    answers the read and the write, with a configured time-to-live that
    is positive and a whole number of milliseconds: the call returns nil
    and the key holds the encoding of the job with the report, with that
    time-to-live set anew; no other key changes. *)
Theorem UpdateReport_writes (scanJobID : string) (report : ScanReport)
    (c : redis.Client) (value bytes : string) (ttl : Z)
    (scanJob : job.ScanJob ScanJobStatus ScanReport) :
  redis.data c !! key scanJobID = Some (value, ttl) ->
  json_Unmarshal value = JsonOk scanJob ->
  job.ID scanJob = scanJobID ->
  server.answers_next 2 c = true ->
  0 < etc.ScanJobTTL cfg ->
  Z.rem (etc.ScanJobTTL cfg) redis.Millisecond = 0 ->
  json_Marshal (with_report scanJob report) = JsonOk bytes ->
  UpdateReport scanJobID report c
  = (go.Return None,
     redis.mkClient
       (<[key scanJobID := (bytes, etc.ScanJobTTL cfg)]> (redis.data c))
       (tail (tail (redis.script c)))).
Proof.
  intros Hk Hu Hid Hn Hpos Hms Hm.
  apply answers_next_S in Hn as [Ha Hn].
  apply answers_next_S in Hn as [Ha' _]. unfold server.after_command in Ha'.
  rewrite (UpdateReport_answers _ _ _ _ bytes _ (etc.ScanJobTTL cfg) _
             Hk Hu Ha Ha' Hm (set_expiry_whole_ms _ _ Hpos Hms)).
  rewrite Hid, Hk. reflexivity.
Qed.

(** A successful [UpdateReport] on a stored job leaves the id, the status
    and the error of the stored record as they were; for a record stored
    under its own id the record then holds the report, and no other key
    of the server has changed. The codec is assumed to decode the record
    it has just encoded. *)
Theorem UpdateReport_frame (scanJobID : string) (report : ScanReport)
    (c c' : redis.Client) (value : string) (ttl : Z)
    (scanJob : job.ScanJob ScanJobStatus ScanReport) :
  redis.data c !! key scanJobID = Some (value, ttl) ->
  json_Unmarshal value = JsonOk scanJob ->
  UpdateReport scanJobID report c = (go.Return None, c') ->
  (forall bytes, json_Marshal (with_report scanJob report) = JsonOk bytes ->
                 json_Unmarshal bytes = JsonOk (with_report scanJob report)) ->
  exists scanJob',
    stored_job json_Unmarshal cfg c' scanJobID = Some (JsonOk scanJob')
    /\ job.ID scanJob' = job.ID scanJob
    /\ job.Status scanJob' = job.Status scanJob
    /\ job.Error scanJob' = job.Error scanJob
    /\ (job.ID scanJob = scanJobID ->
        job.Report scanJob' = report
        /\ (forall k, k ≠ key scanJobID ->
            redis.data c' !! k = redis.data c !! k)).
Proof.
  intros Hheld Hj Hrun Hrt.
  unfold store.UpdateReport, bind in Hrun.
  destruct (answers_or_fails c) as [Ha|(f & rest & Hs)].
  2:{ rewrite (Get_fails _ _ c scanJobID f rest Hs) in Hrun. cbn in Hrun.
      discriminate Hrun. }
  rewrite Get_answers in Hrun by exact Ha. rewrite Hheld, Hj in Hrun.
  cbn in Hrun. fold (with_report scanJob report) in Hrun.
  apply update_success in Hrun as (bytes & Hm & Hd).
  cbn [redis.data job.ID with_report] in Hd.
  unfold stored_job, stored_value.
  destruct (decide (job.ID scanJob = scanJobID)) as [Hid|Hid].
  - rewrite Hid, Hheld in Hd. destruct Hd as (ttl' & Hd). rewrite Hd.
    exists (with_report scanJob report). rewrite lookup_insert_eq. cbn.
    rewrite (Hrt bytes Hm).
    split; [reflexivity|]. split; [reflexivity|]. split; [reflexivity|].
    split; [reflexivity|].
    intros _. split; [reflexivity|].
    intros k Hk. apply lookup_insert_ne. congruence.
  - assert (Hk : key (job.ID scanJob) ≠ key scanJobID).
    { intros E. apply Hid. exact (keyForScanJob_inj cfg _ _ E). }
    assert (Hsame : redis.data c' !! key scanJobID = Some (value, ttl)).
    { destruct (redis.data c !! key (job.ID scanJob)).
      - destruct Hd as (ttl' & ->).
        rewrite lookup_insert_ne by exact Hk. exact Hheld.
      - rewrite Hd. exact Hheld. }
    exists scanJob. rewrite Hsame. cbn. rewrite Hj.
    split; [reflexivity|]. split; [reflexivity|]. split; [reflexivity|].
    split; [reflexivity|]. intros E. contradiction.
Qed.

(** The life of a job on a server that answers, with a configured
    time-to-live that is positive and a whole number of milliseconds:
    created, given a status, given a report, then read. Each call returns
    nil and the read gives the job with the new status, the message and
    the report; the server holds one value under the key, the last
    encoding. The codec is assumed to decode the three records it encodes
    on the way. *)
Theorem lifecycle (scanJob : job.ScanJob ScanJobStatus ScanReport)
    (newStatus : ScanJobStatus) (error : list string) (report : ScanReport)
    (b0 b1 b2 : string) (c : redis.Client) :
  let updated := with_status scanJob newStatus error in
  let reported := with_report updated report in
  redis.data c !! key (job.ID scanJob) = None ->
  server.answers_next 6 c = true ->
  0 < etc.ScanJobTTL cfg ->
  Z.rem (etc.ScanJobTTL cfg) redis.Millisecond = 0 ->
  json_Marshal scanJob = JsonOk b0 -> json_Unmarshal b0 = JsonOk scanJob ->
  json_Marshal updated = JsonOk b1 -> json_Unmarshal b1 = JsonOk updated ->
  json_Marshal reported = JsonOk b2 -> json_Unmarshal b2 = JsonOk reported ->
  exists c1 c2 c3,
    Create scanJob c = (go.Return None, c1)
    /\ UpdateStatus (job.ID scanJob) newStatus error c1 = (go.Return None, c2)
    /\ UpdateReport (job.ID scanJob) report c2 = (go.Return None, c3)
    /\ Get (job.ID scanJob) c3
       = (go.Return (Some reported, None), server.after_command c3)
    /\ redis.data c3
       = <[key (job.ID scanJob) := (b2, etc.ScanJobTTL cfg)]> (redis.data c).
Proof.
  intros updated reported Habsent Hn Hpos Hms Hm0 Hu0 Hm1 Hu1 Hm2 Hu2.
  apply answers_next_S in Hn as [Ha0 Hn]. apply answers_next_S in Hn as [Ha1 Hn].
  apply answers_next_S in Hn as [Ha2 Hn]. apply answers_next_S in Hn as [Ha3 Hn].
  apply answers_next_S in Hn as [Ha4 Hn]. apply answers_next_S in Hn as [Ha5 _].
  unfold server.after_command in *. cbn [redis.data redis.script] in *.
  pose proof (fun old => set_expiry_whole_ms (etc.ScanJobTTL cfg) old Hpos Hms)
    as Httl.
  eexists _, _, _.
  split; [exact (Create_answers _ b0 _ _ Hm0 Ha0 (Httl _))|].
  rewrite Habsent.
  split.
  { rewrite (UpdateStatus_answers (job.ID scanJob) newStatus error _ b0 b1
               (etc.ScanJobTTL cfg) (etc.ScanJobTTL cfg) scanJob);
      [reflexivity | apply lookup_insert_eq | exact Hu0 | exact Ha1 | exact Ha2
      | exact Hm1 | apply Httl]. }
  cbn [redis.data redis.script]. rewrite lookup_insert_eq.
  split.
  { rewrite (UpdateReport_answers (job.ID scanJob) report _ b1 b2
               (etc.ScanJobTTL cfg) (etc.ScanJobTTL cfg) updated);
      [reflexivity | apply lookup_insert_eq | exact Hu1 | exact Ha3 | exact Ha4
      | exact Hm2 | apply Httl]. }
  cbn [redis.data redis.script job.ID updated with_status].
  rewrite lookup_insert_eq.
  rewrite Get_answers by exact Ha5.
  cbn [redis.data]. rewrite lookup_insert_eq, Hu2.
  split; [reflexivity|].
  rewrite !insert_insert_eq. reflexivity.
Qed.

End Store.
(** ** On the sample store *)

Lemma Create_fresh_witness :
  sample.Create sample.job1 sample.empty_server
  = (go.Return None, sample.server1).
Proof.
  exact (Create_fresh sample.json_Marshal sample.cfg sample.job1
           "job-1;Queued;;" sample.empty_server
           eq_refl eq_refl eq_refl eq_refl eq_refl).
Defined.

Lemma Create_then_Get_witness :
  exists c1,
    sample.Create sample.job1 sample.empty_server = (go.Return None, c1)
    /\ fst (sample.Get "job-1" c1) = go.Return (Some sample.job1, None).
Proof.
  destruct (Create_then_Get sample.json_Marshal sample.json_Unmarshal sample.cfg
              sample.job1 "job-1;Queued;;" sample.empty_server
              eq_refl eq_refl)
    as (c1 & Hcreate & Hget);
    [intros E; discriminate E | reflexivity | reflexivity |].
  exists c1. split; [exact Hcreate|].
  change (sample.Get "job-1" c1)
    with (store.Get sample.json_Unmarshal sample.cfg (job.ID sample.job1) c1).
  rewrite Hget. reflexivity.
Defined.

Lemma update_absent_witness :
  exists c',
    store.update sample.json_Marshal sample.cfg sample.job1 sample.empty_server
    = (go.Return None, c')
    /\ redis.data c' = redis.data sample.empty_server.
Proof.
  destruct (update_absent sample.json_Marshal sample.cfg sample.job1
              sample.empty_server eq_refl)
    as (result & c' & Hrun & Hdata & Hnil).
  assert (Hge : -1 <= etc.ScanJobTTL sample.cfg) by (intros E; discriminate E).
  exists c'. rewrite (Hnil "job-1;Queued;;" eq_refl eq_refl Hge) in Hrun.
  split; [exact Hrun | exact Hdata].
Defined.

Lemma UpdateStatus_undecodable_witness :
  sample.UpdateStatus "job-1" sample.Pending [] sample.corrupt_server
  = (go.Return (Some (Errorf_s "scan job %s not found" "job-1")),
     sample.corrupt_server).
Proof.
  exact (UpdateStatus_undecodable sample.json_Marshal sample.json_Unmarshal
           sample.cfg "job-1" sample.Pending [] sample.corrupt_server
           "garbage" 3600000000000 (json_failure "unexpected end of input")
           eq_refl eq_refl).
Defined.

Lemma UpdateReport_undecodable_witness :
  sample.UpdateReport "job-1" "report" sample.corrupt_server
  = (go.Return (Some (Errorf_w "unmarshalling scan job: %w"
                        (json_failure "unexpected end of input"))),
     sample.corrupt_server).
Proof.
  exact (UpdateReport_undecodable sample.json_Marshal sample.json_Unmarshal
           sample.cfg "job-1" "report" sample.corrupt_server
           "garbage" 3600000000000 (json_failure "unexpected end of input")
           eq_refl eq_refl eq_refl).
Defined.

Lemma UpdateReport_backend_failure_witness :
  sample.UpdateReport "job-1" "report" sample.failing_server1
  = (go.Return (Some (redis_failure "dial tcp: connection refused")),
     sample.server1).
Proof.
  exact (store_spec.UpdateReport_backend_failure sample.json_Marshal
           sample.json_Unmarshal sample.cfg "job-1" "report"
           sample.failing_server1
           (redis.RequestLost "dial tcp: connection refused") [] eq_refl).
Defined.

Lemma UpdateStatus_writes_witness :
  sample.UpdateStatus "job-1" sample.Failed [ "scan failed" ] sample.server1
  = (go.Return None,
     redis.mkClient
       {[ sample.key1 := ("job-1;Failed;scan failed;", 3600000000000) ]} []).
Proof.
  exact (UpdateStatus_writes sample.json_Marshal sample.json_Unmarshal sample.cfg
           "job-1" sample.Failed [ "scan failed" ] sample.server1
           "job-1;Queued;;" "job-1;Failed;scan failed;" 3600000000000 sample.job1
           eq_refl eq_refl eq_refl eq_refl eq_refl eq_refl eq_refl).
Defined.

Lemma UpdateReport_writes_witness :
  sample.UpdateReport "job-1" "report" sample.server1
  = (go.Return None,
     redis.mkClient
       {[ sample.key1 := ("job-1;Queued;;report", 3600000000000) ]} []).
Proof.
  exact (UpdateReport_writes sample.json_Marshal sample.json_Unmarshal sample.cfg
           "job-1" "report" sample.server1
           "job-1;Queued;;" "job-1;Queued;;report" 3600000000000 sample.job1
           eq_refl eq_refl eq_refl eq_refl eq_refl eq_refl eq_refl).
Defined.

Lemma UpdateReport_frame_witness :
  exists scanJob',
    stored_job sample.json_Unmarshal sample.cfg
      (snd (sample.UpdateReport "job-1" "report" sample.server1)) "job-1"
    = Some (JsonOk scanJob')
    /\ job.ID scanJob' = "job-1"
    /\ job.Status scanJob' = sample.Queued
    /\ job.Error scanJob' = ""
    /\ job.Report scanJob' = "report".
Proof.
  destruct (UpdateReport_frame sample.json_Marshal sample.json_Unmarshal sample.cfg
              "job-1" "report" sample.server1
              (snd (sample.UpdateReport "job-1" "report" sample.server1))
              "job-1;Queued;;" 3600000000000 sample.job1
              eq_refl eq_refl eq_refl)
    as (scanJob' & Hstored & Hid & Hstatus & Herror & Hown).
  { intros bytes E. vm_compute in E. injection E as <-. reflexivity. }
  destruct (Hown eq_refl) as (Hreport & _).
  exists scanJob'. split; [exact Hstored|]. split; [exact Hid|].
  split; [exact Hstatus|]. split; [exact Herror | exact Hreport].
Defined.

Lemma lifecycle_witness :
  exists c1 c2 c3,
    sample.Create sample.job1 sample.empty_server = (go.Return None, c1)
    /\ sample.UpdateStatus "job-1" sample.Pending [] c1 = (go.Return None, c2)
    /\ sample.UpdateReport "job-1" "report" c2 = (go.Return None, c3)
    /\ fst (sample.Get "job-1" c3) = go.Return (Some sample.job1', None).
Proof.
  destruct (lifecycle sample.json_Marshal sample.json_Unmarshal sample.cfg
              sample.job1 sample.Pending [] "report"
              "job-1;Queued;;" "job-1;Pending;;" "job-1;Pending;;report"
              sample.empty_server
              eq_refl eq_refl eq_refl eq_refl
              eq_refl eq_refl eq_refl eq_refl eq_refl eq_refl)
    as (c1 & c2 & c3 & H1 & H2 & H3 & H4 & _).
  exists c1, c2, c3. split; [exact H1|]. split; [exact H2|]. split; [exact H3|].
  change (sample.Get "job-1" c3)
    with (store.Get sample.json_Unmarshal sample.cfg (job.ID sample.job1) c3).
  rewrite H4. reflexivity.
Defined.

End store_more.

(** * More on the transformer: what a report holds for its source *)

Module transformer_more.
Import scan scan_facts.

Lemma max_ordinal_app (a b : list harbor.Severity) :
  max_ordinal (a ++ b) = Z.max (max_ordinal a) (max_ordinal b).
Proof.
  unfold max_ordinal. induction a as [|s a IH].
  - rewrite app_nil_l, fmap_nil. cbn [foldr].
    assert (1 <= foldr Z.max (harbor.ordinal harbor.SevUnknown) (harbor.ordinal <$> b)).
    { destruct b as [|s b]; rewrite ?fmap_nil, ?fmap_cons; cbn [foldr].
      - cbn. lia.
      - pose proof (ordinal_range s). lia. }
    cbn in *. lia.
  - rewrite <- app_comm_cons, !fmap_cons. cbn [foldr]. rewrite IH. lia.
Qed.

Lemma max_ordinal_attained (sevs : list harbor.Severity) :
  max_ordinal sevs = harbor.ordinal harbor.SevUnknown
  \/ exists s, s ∈ sevs /\ harbor.ordinal s = max_ordinal sevs.
Proof.
  unfold max_ordinal. induction sevs as [|s sevs IH].
  - left. reflexivity.
  - rewrite fmap_cons. cbn [foldr].
    destruct (Z.max_spec (harbor.ordinal s)
                (foldr Z.max (harbor.ordinal harbor.SevUnknown)
                   (harbor.ordinal <$> sevs))) as [[_ E]|[_ E]]; rewrite E.
    + destruct IH as [IH|(s' & Hin & Hs')]; [left; exact IH|].
      right. exists s'. split; [apply elem_of_cons; auto | exact Hs'].
    + right. exists s. split; [apply elem_of_cons; auto | reflexivity].
Qed.

(** What the table gives, string by string. *)
Lemma toHarborSeverity_cases (severity : string) :
  (severity = "CRITICAL" /\ toHarborSeverity severity = (harbor.SevCritical, []))
  \/ (severity = "HIGH" /\ toHarborSeverity severity = (harbor.SevHigh, []))
  \/ (severity = "MEDIUM" /\ toHarborSeverity severity = (harbor.SevMedium, []))
  \/ (severity = "LOW" /\ toHarborSeverity severity = (harbor.SevLow, []))
  \/ (severity = "UNKNOWN" /\ toHarborSeverity severity = (harbor.SevUnknown, []))
  \/ ((severity ∉ [ "CRITICAL"; "HIGH"; "MEDIUM"; "LOW"; "UNKNOWN" ])
      /\ tunnelToHarborSeverityMap !! severity = None
      /\ toHarborSeverity severity
         = (harbor.SevUnknown,
            slog.Warn "Unknown tunnel severity" [("severity", severity)])).
Proof.
  destruct (decide (severity = "CRITICAL")) as [->|H1]; [left; split; reflexivity|].
  destruct (decide (severity = "HIGH")) as [->|H2];
    [right; left; split; reflexivity|].
  destruct (decide (severity = "MEDIUM")) as [->|H3];
    [right; right; left; split; reflexivity|].
  destruct (decide (severity = "LOW")) as [->|H4];
    [right; right; right; left; split; reflexivity|].
  destruct (decide (severity = "UNKNOWN")) as [->|H5];
    [right; right; right; right; left; split; reflexivity|].
  do 5 right.
  assert (Hnone : tunnelToHarborSeverityMap !! severity = None).
  { unfold tunnelToHarborSeverityMap. cbn [list_to_map foldr uncurry fst snd].
    rewrite !lookup_insert_ne by congruence. apply lookup_empty. }
  split; [|split; [exact Hnone|]].
  - rewrite !elem_of_cons, elem_of_nil. tauto.
  - unfold toHarborSeverity. rewrite Hnone. reflexivity.
Qed.

Section Aggregate.
Context {CVSSInfo : Type}.
Implicit Types vlns : list (harbor.VulnerabilityItem.t CVSSInfo).

(** The aggregate of two lists put together is the greater of their
    aggregates. *)
Theorem toHighestSeverity_app vlns1 vlns2 :
  harbor.ordinal (toHighestSeverity (Some (vlns1 ++ vlns2)%list))
  = Z.max (harbor.ordinal (toHighestSeverity (Some vlns1)))
          (harbor.ordinal (toHighestSeverity (Some vlns2))).
Proof.
  unfold toHighestSeverity, slice.elems. cbn [default from_option id].
  rewrite !range_vlns_ordinal, fmap_app. apply max_ordinal_app.
Qed.

(** The aggregate is the severity of one of the items, or [SevUnknown];
    it is [SevCritical] exactly when some item is. *)
Theorem toHighestSeverity_attained
    (vlns : option (list (harbor.VulnerabilityItem.t CVSSInfo))) :
  (toHighestSeverity vlns = harbor.SevUnknown
   \/ exists vln, vln ∈ slice.elems vlns
        /\ harbor.VulnerabilityItem.Severity vln = toHighestSeverity vlns)
  /\ (toHighestSeverity vlns = harbor.SevCritical
      <-> exists vln, vln ∈ slice.elems vlns
            /\ harbor.VulnerabilityItem.Severity vln = harbor.SevCritical).
Proof.
  unfold toHighestSeverity.
  pose proof (range_vlns_ordinal (slice.elems vlns)) as Hord.
  pose proof (max_ordinal_attained
                (harbor.VulnerabilityItem.Severity <$> slice.elems vlns)) as Hatt.
  pose proof (max_ordinal_upper
                (harbor.VulnerabilityItem.Severity <$> slice.elems vlns)) as Hup.
  rewrite <- Hord in Hatt, Hup.
  assert (Hsome : range_vlns harbor.SevUnknown (slice.elems vlns) = harbor.SevUnknown
                  \/ exists vln, vln ∈ slice.elems vlns
                       /\ harbor.VulnerabilityItem.Severity vln
                          = range_vlns harbor.SevUnknown (slice.elems vlns)).
  { destruct Hatt as [E|(s & Hin & E)].
    - left. apply ordinal_inj. exact E.
    - right. apply list_elem_of_fmap in Hin as (vln & -> & Hin).
      exists vln. split; [exact Hin|]. apply ordinal_inj. exact E. }
  split; [exact Hsome|]. split.
  - intros E. destruct Hsome as [E'|(vln & Hin & Hs)]; [congruence|].
    exists vln. split; [exact Hin | congruence].
  - intros (vln & Hin & Hs). apply ordinal_inj.
    rewrite Forall_forall in Hup.
    assert (Hle := Hup (harbor.VulnerabilityItem.Severity vln)
                     (list_elem_of_fmap_2 _ _ _ Hin)).
    rewrite Hs in Hle.
    pose proof (ordinal_range (range_vlns harbor.SevUnknown (slice.elems vlns))).
    cbn in *. lia.
Qed.

End Aggregate.

Section Items.
Context {CVSSInfo : Type}.
Implicit Types source : list (tunnel.Vulnerability.t CVSSInfo).

Lemma range_source_copies source :
  forall (i : nat) (v : tunnel.Vulnerability.t CVSSInfo),
  source !! i = Some v ->
  exists item,
    fst (range_source source) !! i = Some item
    /\ harbor.VulnerabilityItem.ID item = tunnel.Vulnerability.VulnerabilityID v
    /\ harbor.VulnerabilityItem.Pkg item = tunnel.Vulnerability.PkgName v
    /\ harbor.VulnerabilityItem.Version item = tunnel.Vulnerability.InstalledVersion v
    /\ harbor.VulnerabilityItem.FixVersion item = tunnel.Vulnerability.FixedVersion v
    /\ harbor.VulnerabilityItem.Description item = tunnel.Vulnerability.Description v
    /\ harbor.VulnerabilityItem.CweIDs item = tunnel.Vulnerability.CweIDs v
    /\ harbor.VulnerabilityItem.Layer item
       = (fun l => harbor.mkLayer (tunnel.Layer_Digest l) (tunnel.Layer_DiffID l))
           <$> tunnel.Vulnerability.Layer v.
Proof.
  induction source as [|v0 rest IH]; intros i v Hi; [discriminate Hi|].
  cbn [range_source].
  destruct (toHarborSeverity (tunnel.Vulnerability.Severity v0)) as [sev logged].
  destruct (range_source rest) as [items logged'] eqn:Hrest.
  destruct i as [|i]; cbn in Hi |- *.
  - injection Hi as <-. eexists. split; [reflexivity|]. cbn.
    do 6 (split; [reflexivity|]).
    destruct (tunnel.Vulnerability.Layer v0); reflexivity.
  - destruct (IH i v Hi) as (item & Hitem & Hrec). cbn in Hitem.
    exists item. split; [exact Hitem | exact Hrec].
Qed.

Lemma range_source_severities source :
  harbor.VulnerabilityItem.Severity <$> fst (range_source source)
  = (fun v => fst (toHarborSeverity (tunnel.Vulnerability.Severity v))) <$> source.
Proof.
  induction source as [|v0 rest IH]; [reflexivity|].
  cbn [range_source]. rewrite fmap_cons.
  destruct (toHarborSeverity (tunnel.Vulnerability.Severity v0)) as [sev logged].
  destruct (range_source rest) as [items logged']. cbn [fst] in *.
  rewrite fmap_cons. cbn. rewrite IH. reflexivity.
Qed.

Lemma range_source_logged source :
  snd (range_source source)
  = (fun v => slog.mkRecord slog.LevelWarn "Unknown tunnel severity"
                [("severity", tunnel.Vulnerability.Severity v)])
      <$> filter (fun v => tunnelToHarborSeverityMap
                           !! tunnel.Vulnerability.Severity v = None) source.
Proof.
  induction source as [|v0 rest IH]; [reflexivity|].
  cbn [range_source]. rewrite filter_cons.
  unfold toHarborSeverity at 1.
  destruct (range_source rest) as [items logged']. cbn [snd] in IH.
  destruct (tunnelToHarborSeverityMap !! tunnel.Vulnerability.Severity v0)
    as [sev|] eqn:Hlook.
  - rewrite decide_False by discriminate. cbn. exact IH.
  - rewrite decide_True by reflexivity. rewrite fmap_cons. cbn. rewrite IH.
    reflexivity.
Qed.

Context {C : Type} `{Clock C}.
Variable GetScannerMetadata : harbor.Scanner.
Implicit Types (t : transformer C) (artifact : harbor.Artifact).

(** A nil or empty source: the report has the time of the clock, the
    scanner and the artifact, severity [SevUnknown] and an allocated empty
    list of items; nothing is logged. *)
Theorem Transform_empty t artifact
    (source : option (list (tunnel.Vulnerability.t CVSSInfo))) :
  slice.elems source = [] ->
  Transform GetScannerMetadata t artifact source
  = (harbor.ScanReport.mk (Now (clock t)) GetScannerMetadata artifact
       harbor.SevUnknown (Some []),
     []).
Proof.
  intros E. unfold Transform. rewrite E. reflexivity.
Qed.

(** The report has one item per finding, in the order of the source, and
    each item copies the id, package, versions, description, weakness ids
    and layer of its finding. *)
Theorem Transform_copies t artifact
    (source : option (list (tunnel.Vulnerability.t CVSSInfo))) :
  let items :=
    slice.elems
      (harbor.ScanReport.Vulnerabilities
         (fst (Transform GetScannerMetadata t artifact source))) in
  length items = length (slice.elems source)
  /\ forall (i : nat) (v : tunnel.Vulnerability.t CVSSInfo),
       slice.elems source !! i = Some v ->
       exists item,
         items !! i = Some item
         /\ harbor.VulnerabilityItem.ID item = tunnel.Vulnerability.VulnerabilityID v
         /\ harbor.VulnerabilityItem.Pkg item = tunnel.Vulnerability.PkgName v
         /\ harbor.VulnerabilityItem.Version item
            = tunnel.Vulnerability.InstalledVersion v
         /\ harbor.VulnerabilityItem.FixVersion item
            = tunnel.Vulnerability.FixedVersion v
         /\ harbor.VulnerabilityItem.Description item
            = tunnel.Vulnerability.Description v
         /\ harbor.VulnerabilityItem.CweIDs item = tunnel.Vulnerability.CweIDs v
         /\ harbor.VulnerabilityItem.Layer item
            = (fun l => harbor.mkLayer (tunnel.Layer_Digest l) (tunnel.Layer_DiffID l))
                <$> tunnel.Vulnerability.Layer v.
Proof.
  intros items. unfold items. rewrite Transform_Vulnerabilities.
  split; [apply range_source_length|].
  intros i v Hi. apply range_source_copies. exact Hi.
Qed.

(** [Transform] logs one warning for each finding whose severity string
    is not a key of the table, in the order of the source, and nothing
    else. *)
Theorem Transform_warnings t artifact
    (source : option (list (tunnel.Vulnerability.t CVSSInfo))) :
  snd (Transform GetScannerMetadata t artifact source)
  = (fun v => slog.mkRecord slog.LevelWarn "Unknown tunnel severity"
                [("severity", tunnel.Vulnerability.Severity v)])
      <$> filter (fun v => tunnelToHarborSeverityMap
                           !! tunnel.Vulnerability.Severity v = None)
                 (slice.elems source).
Proof.
  unfold Transform. rewrite <- range_source_logged.
  destruct (range_source (slice.elems source)) as [items logged]. reflexivity.
Qed.

(** The severity of a report, read off the severity strings of its
    source: it is [SevCritical] exactly when some finding says CRITICAL,
    and [SevUnknown] exactly when no finding says CRITICAL, HIGH, MEDIUM
    or LOW. *)
Theorem Transform_Severity_of_strings t artifact
    (source : option (list (tunnel.Vulnerability.t CVSSInfo))) :
  let severity :=
    harbor.ScanReport.Severity
      (fst (Transform GetScannerMetadata t artifact source)) in
  (severity = harbor.SevCritical
   <-> exists v, v ∈ slice.elems source
         /\ tunnel.Vulnerability.Severity v = "CRITICAL")
  /\ (severity = harbor.SevUnknown
      <-> forall v, v ∈ slice.elems source ->
            tunnel.Vulnerability.Severity v ∉ [ "CRITICAL"; "HIGH"; "MEDIUM"; "LOW" ]).
Proof.
  intros severity.
  assert (Hord : harbor.ordinal severity
                 = max_ordinal
                     ((fun v => fst (toHarborSeverity (tunnel.Vulnerability.Severity v)))
                        <$> slice.elems source)).
  { unfold severity. rewrite Transform_Severity, Transform_Vulnerabilities.
    unfold toHighestSeverity. cbn [slice.elems default from_option id].
    unfold slice.elems at 1. cbn [default from_option id].
    rewrite range_vlns_ordinal, range_source_severities. reflexivity. }
  pose proof (max_ordinal_upper
                ((fun v => fst (toHarborSeverity (tunnel.Vulnerability.Severity v)))
                   <$> slice.elems source)) as Hup.
  pose proof (max_ordinal_attained
                ((fun v => fst (toHarborSeverity (tunnel.Vulnerability.Severity v)))
                   <$> slice.elems source)) as Hatt.
  rewrite <- Hord in Hup, Hatt. rewrite Forall_forall in Hup.
  clearbody severity.
  assert (Hc : fst (toHarborSeverity "CRITICAL") = harbor.SevCritical) by reflexivity.
  assert (Hh : fst (toHarborSeverity "HIGH") = harbor.SevHigh) by reflexivity.
  assert (Hm : fst (toHarborSeverity "MEDIUM") = harbor.SevMedium) by reflexivity.
  assert (Hl : fst (toHarborSeverity "LOW") = harbor.SevLow) by reflexivity.
  split; split.
  - intros E. rewrite E in Hatt. destruct Hatt as [E'|(s & Hin & Hs)]; [discriminate E'|].
    apply list_elem_of_fmap in Hin as (v & -> & Hin).
    exists v. split; [exact Hin|]. apply ordinal_inj in Hs.
    destruct (toHarborSeverity_cases (tunnel.Vulnerability.Severity v))
      as [[Hv _]|[[_ Hv]|[[_ Hv]|[[_ Hv]|[[_ Hv]|(_ & _ & Hv)]]]]];
      [exact Hv| rewrite Hv in Hs; discriminate Hs ..].
  - intros (v & Hin & Hv). apply ordinal_inj.
    assert (Hle := Hup _ (list_elem_of_fmap_2
                            (fun v => fst (toHarborSeverity (tunnel.Vulnerability.Severity v)))
                            _ _ Hin)).
    cbn beta in Hle. rewrite Hv, Hc in Hle.
    pose proof (ordinal_range severity). cbn in *. lia.
  - intros E v Hin.
    assert (Hle := Hup _ (list_elem_of_fmap_2
                            (fun v => fst (toHarborSeverity (tunnel.Vulnerability.Severity v)))
                            _ _ Hin)).
    cbn beta in Hle. rewrite E in Hle.
    rewrite !elem_of_cons, elem_of_nil.
    intros [Hv|[Hv|[Hv|[Hv|[]]]]]; rewrite Hv, ?Hc, ?Hh, ?Hm, ?Hl in Hle;
      cbn in Hle; lia.
  - intros Hall. destruct Hatt as [E|(s & Hin & Hs)]; [apply ordinal_inj; exact E|].
    apply list_elem_of_fmap in Hin as (v & -> & Hin).
    apply ordinal_inj in Hs. rewrite <- Hs.
    specialize (Hall v Hin). rewrite !elem_of_cons, elem_of_nil in Hall.
    destruct (toHarborSeverity_cases (tunnel.Vulnerability.Severity v))
      as [[Hv _]|[[Hv _]|[[Hv _]|[[Hv _]|[[_ Hv]|(_ & _ & Hv)]]]]];
      try (exfalso; tauto); rewrite Hv; reflexivity.
Qed.

End Items.

(** ** On the sample source *)

Lemma Transform_empty_witness :
  sample.Transform None
  = (harbor.ScanReport.mk 1577836800 sample.scanner sample.artifact
       harbor.SevUnknown (Some []),
     [])
  /\ sample.Transform (Some []) = sample.Transform None.
Proof.
  split.
  - exact (Transform_empty sample.scanner (mk_transformer 1577836800)
             sample.artifact None eq_refl).
  - unfold sample.Transform.
    rewrite (Transform_empty sample.scanner (mk_transformer 1577836800)
               sample.artifact None eq_refl).
    exact (Transform_empty sample.scanner (mk_transformer 1577836800)
             sample.artifact (Some []) eq_refl).
Defined.

Lemma Transform_copies_witness :
  exists item,
    slice.elems (harbor.ScanReport.Vulnerabilities
                   (fst (sample.Transform sample.source))) !! 0%nat = Some item
    /\ harbor.VulnerabilityItem.ID item = "CVE-2019-1111"
    /\ harbor.VulnerabilityItem.Pkg item = "openssl"
    /\ harbor.VulnerabilityItem.Layer item
       = Some (harbor.mkLayer "sha256:5216338b40a7" "sha256:3c43e0b2e9b2").
Proof.
  destruct (Transform_copies sample.scanner (mk_transformer 1577836800)
              sample.artifact sample.source) as [_ Hcopy].
  destruct (Hcopy 0%nat sample.vuln_full eq_refl)
    as (item & Hitem & Hid & Hpkg & _ & _ & _ & _ & Hlayer).
  exists item. split; [exact Hitem|]. split; [exact Hid|].
  split; [exact Hpkg | exact Hlayer].
Defined.

Lemma Transform_Severity_of_strings_witness :
  harbor.ScanReport.Severity (fst (sample.Transform sample.source))
  = harbor.SevCritical
  /\ harbor.ScanReport.Severity
      (fst (sample.Transform (Some [ sample.vuln_bare ])))
    = harbor.SevUnknown.
Proof.
  split.
  - apply (Transform_Severity_of_strings sample.scanner (mk_transformer 1577836800)
             sample.artifact sample.source).
    exists sample.vuln_full. split; [|reflexivity].
    apply elem_of_cons. left. reflexivity.
  - apply (Transform_Severity_of_strings sample.scanner (mk_transformer 1577836800)
             sample.artifact (Some [ sample.vuln_bare ])).
    intros v Hin. apply list_elem_of_singleton in Hin. subst v.
    rewrite !elem_of_cons, elem_of_nil.
    intros [E|[E|[E|[E|[]]]]]; discriminate E.
Defined.

End transformer_more.
